(** * vcap: single-frame V4L2 capture to JPEG

    A shallow embedding of [vcap.c] and the properties of its capture
    sequence and of its YUYV to RGB conversion.

    - C [int] and [__u32] values are integers of [Z] with the wrap-around
      of every operation written out.
    - The mmap()'d frame buffer is a [list byte] that lives in the world
      (the kernel fills it on VIDIOC_DQBUF). C gives no meaning to a read
      past its end or to a store past the end of the row buffer: such a
      call has no result here, [None].
    - libjpeg runs under its standard error handler, which ends the
      process when the library refuses the image: the call does not
      return, [None] again.
    - The kernel, the C library and libjpeg are the environment: every
      system call takes its outcome from an [env] record, records an
      event in the world's trace and applies its effect to the device
      state and to the file system. *)

From Stdlib Require Import ZArith Lia.
From Stdlib Require Import Strings.Byte Strings.Ascii.
From stdpp Require Import base option list strings gmap.

Local Open Scope Z_scope.

(** ** C integer arithmetic *)

Definition INT_MAX : Z := 2147483647.
Definition INT_MIN : Z := -2147483648.

(** Conversion of a mathematical integer to [int] (two's complement). *)
Definition wrap_int (z : Z) : Z := (z + 2147483648) mod 4294967296 - 2147483648.
(** Conversion to [__u32] / [unsigned int]. *)
Definition wrap_u32 (z : Z) : Z := z mod 4294967296.
(** Conversion to [unsigned char]. *)
Definition wrap_u8 (z : Z) : Z := z mod 256.

Definition is_int (z : Z) : Prop := INT_MIN <= z <= INT_MAX.
Definition is_u32 (z : Z) : Prop := 0 <= z < 4294967296.

Definition int_add (a b : Z) : Z := wrap_int (a + b).
Definition int_sub (a b : Z) : Z := wrap_int (a - b).
Definition int_mul (a b : Z) : Z := wrap_int (a * b).
Definition int_shl (a n : Z) : Z := wrap_int (Z.shiftl a n).
(** [>>] on a signed [int] is the arithmetic shift. *)
Definition int_shr (a n : Z) : Z := Z.shiftr a n.

(** [#define CLAMP(_val, _min, _max)] *)
Definition CLAMP (val min max : Z) : Z :=
  if val <? min then min else if val >? max then max else val.

Definition DEFAULT_VIDEODEV : string := "/dev/video0".
Definition DEFAULT_OUTPUTFILE : string := "vcap.jpg".
Definition DEFAULT_WIDTH : Z := 640.
Definition DEFAULT_HEIGHT : Z := 480.
Definition DEFAULT_JPEG_QUALITY : Z := 95.

(** [JPEG_MAX_DIMENSION] of libjpeg's jmorecfg.h. *)
Definition JPEG_MAX_DIMENSION : Z := 65500.

(** Conversion to [size_t], 64 bits wide. *)
Definition wrap_size (z : Z) : Z := z mod 18446744073709551616.

(** ** The pixel loop of [YUYV2JPEG] *)

(** The value of an [unsigned char] promoted to [int]. *)
Definition byte_val (b : byte) : Z := Z.of_N (Byte.to_N b).

(** The two variables that survive from one pixel to the next: the
    toggle [z] and the read pointer [yuyv], an offset into the buffer. *)
Record conv_state := ConvState { cs_z : Z; cs_yuyv : nat }.

(** One iteration of [for (x = 0; x < vi->width; x++)]: the three bytes
    stored through [ptr] and the next state. *)
Definition pixel_body (buf : list byte) (st : conv_state)
  : option (list Z * conv_state) :=
  let z := cs_z st in
  let yuyv := cs_yuyv st in
  yb ← (if z =? 0 then buf !! (yuyv + 0)%nat else buf !! (yuyv + 2)%nat);
  ub ← buf !! (yuyv + 1)%nat;
  vb ← buf !! (yuyv + 3)%nat;
  let y := int_shl (byte_val yb) 8 in
  let u := int_sub (byte_val ub) 128 in
  let v := int_sub (byte_val vb) 128 in
  let r := int_shr (int_add y (int_mul 359 v)) 8 in
  let g := int_shr (int_sub (int_sub y (int_mul 88 u)) (int_mul 183 v)) 8 in
  let b := int_shr (int_add y (int_mul 454 u)) 8 in
  let out := [wrap_u8 (CLAMP r 0 255); wrap_u8 (CLAMP g 0 255);
              wrap_u8 (CLAMP b 0 255)] in
  (* if (z++) { z = 0; yuyv += 4; } *)
  let z' := int_add z 1 in
  Some (out, if z =? 0 then ConvState z' yuyv else ConvState 0 (yuyv + 4)%nat).

(** The [for] loop over one scanline, [n] iterations left: the contents
    of [row_buffer] from [ptr] on, and the state it leaves. [row_buffer]
    has [size] bytes and [ptr] is an offset into it: the three stores
    [*(ptr++) = ...] of an iteration need [ptr + 3 <= size]. *)
Fixpoint row_loop (n : nat) (size ptr : Z) (buf : list byte) (st : conv_state)
  : option (list Z * conv_state) :=
  match n with
  | O => Some ([], st)
  | S n' =>
      '(px, st1) ← pixel_body buf st;
      if ptr + 3 <=? size then
        '(rest, st2) ← row_loop n' size (ptr + 3) buf st1;
        Some (px ++ rest, st2)
      else None
  end.

(** The compressor object, as far as the program sets and reads it;
    [jp_rows] are the scanlines handed to [jpeg_write_scanlines]. *)
Record jpeg_compress_struct := JpegInfo {
  image_width : Z;
  image_height : Z;
  input_components : Z;
  jp_quality : Z;
  next_scanline : Z;
  jp_rows : list (list Z)
}.

(** [jpeg_write_scanlines(&jpgInfo, row_pointer, 1)]. *)
Definition jpeg_write_scanlines (j : jpeg_compress_struct) (row : list Z)
  : jpeg_compress_struct :=
  JpegInfo (image_width j) (image_height j) (input_components j)
           (jp_quality j) (next_scanline j + 1) (jp_rows j ++ [row]).

(** [jpeg_start_compress(&jpgInfo, TRUE)]: libjpeg refuses an empty
    image (JERR_EMPTY_IMAGE) and a dimension above [JPEG_MAX_DIMENSION]
    (JERR_IMAGE_TOO_BIG); under [jpeg_std_error] the refusal prints a
    message and calls exit(), so the call does not return. *)
Definition jpeg_start_compress (j : jpeg_compress_struct)
  : option jpeg_compress_struct :=
  if (image_height j <=? 0) || (image_width j <=? 0)
     || (input_components j <=? 0) then None
  else if (image_height j >? JPEG_MAX_DIMENSION)
          || (image_width j >? JPEG_MAX_DIMENSION) then None
  else Some j.

(** [while (jpgInfo.next_scanline < jpgInfo.image_height)], with [fuel]
    bounding the number of iterations; every scanline starts with
    [ptr = row_buffer]. *)
Fixpoint scan_loop (fuel : nat) (size width : Z) (buf : list byte)
    (j : jpeg_compress_struct) (st : conv_state)
  : option (jpeg_compress_struct * conv_state) :=
  if next_scanline j <? image_height j then
    match fuel with
    | O => None
    | S fuel' =>
        '(row, st1) ← row_loop (Z.to_nat width) size 0 buf st;
        scan_loop fuel' size width buf (jpeg_write_scanlines j row) st1
    end
  else Some (j, st).

(** The compression part of [YUYV2JPEG], from [jpeg_create_compress] to
    [jpeg_finish_compress]: the image handed to the encoder. The row
    buffer is the one allocated by [calloc(vi->width * 3, 1)]. *)
Definition compress_frame (width height : Z) (buf : list byte)
  : option jpeg_compress_struct :=
  let size := wrap_size (int_mul width 3) in
  let j0 := JpegInfo (wrap_u32 width) (wrap_u32 height) 3
                     DEFAULT_JPEG_QUALITY 0 [] in
  j ← jpeg_start_compress j0;
  fst <$> scan_loop (Z.to_nat (image_height j)) size width buf j (ConvState 0 0).

(** ** Kernel structures and constants of [linux/videodev2.h] *)

Definition V4L2_CAP_VIDEO_CAPTURE : Z := 1.          (* 0x00000001 *)
Definition V4L2_CAP_STREAMING : Z := 67108864.       (* 0x04000000 *)
Definition V4L2_BUF_TYPE_VIDEO_CAPTURE : Z := 1.
Definition V4L2_MEMORY_MMAP : Z := 1.
Definition V4L2_FIELD_ANY : Z := 0.
Definition V4L2_PIX_FMT_YUYV : Z := 1448695129.      (* 'Y' 'U' 'Y' 'V' *)
Definition MAP_FAILED : Z := -1.
Definition EINVAL : Z := 22.

Record v4l2_capability := Capability {
  driver : string;
  card : string;
  capabilities : Z
}.

(** [struct v4l2_format] with its [fmt.pix] member flattened. *)
Record v4l2_format := Format {
  fmt_type : Z;
  pix_width : Z;
  pix_height : Z;
  pix_pixelformat : Z;
  pix_field : Z
}.

(** [videoInfo_t]; [buffer] is the address returned by mmap(), the
    bytes behind it are in the world. *)
Record videoInfo_t := VideoInfo {
  width : Z;
  height : Z;
  fd : Z;
  caps : v4l2_capability;
  fmt : v4l2_format;
  buffer : Z;
  buffer_len : Z;
  verbose : bool
}.

Definition set_width (vi : videoInfo_t) (x : Z) : videoInfo_t :=
  VideoInfo x (height vi) (fd vi) (caps vi) (fmt vi) (buffer vi)
            (buffer_len vi) (verbose vi).
Definition set_height (vi : videoInfo_t) (x : Z) : videoInfo_t :=
  VideoInfo (width vi) x (fd vi) (caps vi) (fmt vi) (buffer vi)
            (buffer_len vi) (verbose vi).
Definition set_fd (vi : videoInfo_t) (x : Z) : videoInfo_t :=
  VideoInfo (width vi) (height vi) x (caps vi) (fmt vi) (buffer vi)
            (buffer_len vi) (verbose vi).
Definition set_caps (vi : videoInfo_t) (x : v4l2_capability) : videoInfo_t :=
  VideoInfo (width vi) (height vi) (fd vi) x (fmt vi) (buffer vi)
            (buffer_len vi) (verbose vi).
Definition set_fmt (vi : videoInfo_t) (x : v4l2_format) : videoInfo_t :=
  VideoInfo (width vi) (height vi) (fd vi) (caps vi) x (buffer vi)
            (buffer_len vi) (verbose vi).
Definition set_buffer (vi : videoInfo_t) (x : Z) : videoInfo_t :=
  VideoInfo (width vi) (height vi) (fd vi) (caps vi) (fmt vi) x
            (buffer_len vi) (verbose vi).
Definition set_buffer_len (vi : videoInfo_t) (x : Z) : videoInfo_t :=
  VideoInfo (width vi) (height vi) (fd vi) (caps vi) (fmt vi) (buffer vi)
            x (verbose vi).
Definition set_verbose (vi : videoInfo_t) (x : bool) : videoInfo_t :=
  VideoInfo (width vi) (height vi) (fd vi) (caps vi) (fmt vi) (buffer vi)
            (buffer_len vi) x.

(** ** The world: trace, file system, device *)

Inductive ioctl_request :=
| VIDIOC_QUERYCAP
| VIDIOC_S_FMT (f : v4l2_format)
| VIDIOC_G_FMT
| VIDIOC_REQBUFS (count type memory : Z)
| VIDIOC_QUERYBUF (index : Z)
| VIDIOC_QBUF (index : Z)
| VIDIOC_STREAMON
| VIDIOC_DQBUF
| VIDIOC_STREAMOFF.

(** An argument of a printf-style call. *)
Inductive arg := ArgInt (z : Z) | ArgHex (z : Z) | ArgStr (s : string).

Inductive event :=
| EvOpen (path : string) (ret : Z)
| EvClose (fd : Z)
| EvIoctl (fd : Z) (req : ioctl_request) (ret : Z)
| EvMmap (len off ret : Z)
| EvMunmap (addr len : Z)
| EvSelect (fd sec ret : Z)
| EvCalloc (nmemb size : Z) (ok : bool)
| EvFopen (path : string) (ok : bool)
| EvJpegWrite (path : string)
| EvFclose (path : string)
| EvStdout (format : string) (args : list arg)
| EvStderr (format : string) (args : list arg)
| EvPerror (s : string).

(** What a file holds: raw bytes, or the JPEG encoding of an image. *)
Inductive file_data :=
| FileBytes (bs : list byte)
| FileJpeg (j : jpeg_compress_struct).

(** [w_trace] has the newest event first; [w_mem] is the mapped frame
    buffer, [None] while nothing is mapped. *)
Record world := World {
  w_trace : list event;
  w_fs : gmap string file_data;
  w_streaming : bool;
  w_queued : bool;
  w_mem : option (list byte);
  w_errno : Z
}.

Definition init_world (fs : gmap string file_data) : world :=
  World [] fs false false None 0.

(** The events of a run in the order they happened. *)
Definition history (w : world) : list event := reverse (w_trace w).

(** The capture sequencer is idle: not streaming, nothing queued. *)
Definition idle (w : world) : bool := negb (w_streaming w) && negb (w_queued w).

(** The kernel's reply to one ioctl: return value, errno, and the frame
    the driver stores in the mapped buffer (VIDIOC_DQBUF only). *)
Record reply := Reply { rep_ret : Z; rep_errno : Z; rep_frame : list byte }.

(** The replies during one capture cycle. *)
Record cycle_env := CycleEnv {
  c_qbuf : reply;
  c_streamon : reply;
  c_select : Z;
  c_dqbuf : reply;
  c_streamoff : reply
}.

(** The replies of the environment during one run of the program. *)
Record env := Env {
  e_open : Z;
  e_querycap : reply;
  e_caps : v4l2_capability;
  e_s_fmt : reply;
  e_g_fmt : reply;
  e_fmt : v4l2_format;
  e_reqbufs : reply;
  e_querybuf : reply;
  e_length : Z;
  e_offset : Z;
  e_mmap : Z;
  e_mem : list byte;
  e_discard : cycle_env;
  e_live : cycle_env;
  e_fopen : bool;
  e_calloc : bool
}.

(** ** The monad of the program: state [world], [None] when a call
    does not return *)

Definition M (A : Type) : Type := world → option (A * world).

#[global] Instance M_ret : MRet M := λ A a w, Some (a, w).
#[global] Instance M_bind : MBind M := λ A B f m w,
  match m w with
  | Some (a, w') => f a w'
  | None => None
  end.

Definition fault {A} : M A := λ _, None.

Definition emit (e : event) : M unit := λ w,
  Some ((), World (e :: w_trace w) (w_fs w) (w_streaming w) (w_queued w)
                  (w_mem w) (w_errno w)).

Definition modify (f : world → world) : M unit := λ w, Some ((), f w).

Definition get_errno : M Z := λ w, Some (w_errno w, w).
Definition get_mem : M (list byte) := λ w,
  match w_mem w with Some m => Some (m, w) | None => None end.

Definition with_device (streaming queued : bool) (w : world) : world :=
  World (w_trace w) (w_fs w) streaming queued (w_mem w) (w_errno w).
Definition with_mem (m : option (list byte)) (w : world) : world :=
  World (w_trace w) (w_fs w) (w_streaming w) (w_queued w) m (w_errno w).
Definition with_errno (e : Z) (w : world) : world :=
  World (w_trace w) (w_fs w) (w_streaming w) (w_queued w) (w_mem w) e.
Definition with_file (path : string) (d : file_data) (w : world) : world :=
  World (w_trace w) (<[path := d]> (w_fs w)) (w_streaming w) (w_queued w)
        (w_mem w) (w_errno w).

(** The effect of a successful ioctl on the device. *)
Definition ioctl_effect (req : ioctl_request) (k : reply) (w : world) : world :=
  match req with
  | VIDIOC_QBUF _ => with_device (w_streaming w) true w
  | VIDIOC_STREAMON => with_device true (w_queued w) w
  | VIDIOC_DQBUF => with_mem ((λ _, rep_frame k) <$> w_mem w)
               (with_device (w_streaming w) false w)
  | VIDIOC_STREAMOFF => with_device false false w
  | _ => w
  end.

(** [xioctl]: [k] is the reply to the first attempt that is not
    interrupted (EINTR); the interrupted attempts leave no trace. *)
Definition xioctl (fd : Z) (req : ioctl_request) (k : reply) : M Z :=
  emit (EvIoctl fd req (rep_ret k));;
  modify (if rep_ret k <? 0 then with_errno (rep_errno k) else ioctl_effect req k);;
  mret (rep_ret k).

Definition sys_open (path : string) (ret : Z) : M Z :=
  emit (EvOpen path ret);; mret ret.

(** Closing the device ends streaming and drops the queue. *)
Definition close (fd : Z) : M unit :=
  emit (EvClose fd);; modify (with_device false false).

Definition mmap (len off ret : Z) (data : list byte) : M Z :=
  emit (EvMmap len off ret);;
  modify (if ret =? MAP_FAILED then id else with_mem (Some data));;
  mret ret.

Definition munmap (addr len : Z) : M unit :=
  emit (EvMunmap addr len);; modify (with_mem None).

Definition select (fd sec ret : Z) : M Z :=
  emit (EvSelect fd sec ret);; mret ret.

Definition calloc (nmemb size : Z) (ok : bool) : M bool :=
  emit (EvCalloc nmemb size ok);; mret ok.

(** [fopen(path, "wb")]: creates the file or truncates it. *)
Definition fopen_wb (path : string) (ok : bool) : M bool :=
  emit (EvFopen path ok);;
  modify (if ok then with_file path (FileBytes []) else id);;
  mret ok.

Definition fclose (path : string) : M unit := emit (EvFclose path).

(** The compressor writing the finished image to its destination. *)
Definition jpeg_write (path : string) (j : jpeg_compress_struct) : M unit :=
  emit (EvJpegWrite path);; modify (with_file path (FileJpeg j)).

Definition printf (format : string) (args : list arg) : M unit :=
  emit (EvStdout format args).
Definition fprintf_stderr (format : string) (args : list arg) : M unit :=
  emit (EvStderr format args).
Definition perror (s : string) : M unit := emit (EvPerror s).

(** ** The functions of [vcap.c] *)

Definition printUsage : M unit :=
  printf "Usage: vcap [-d path ] [-o path ] [ -w width ]\n" [];;
  printf "            [ -h height ] [ -v ]\n\n" [];;
  printf "    -d <path>        video device, default: %s\n" [ArgStr DEFAULT_VIDEODEV];;
  printf "    -o <path>        image output file, default: %s\n" [ArgStr DEFAULT_OUTPUTFILE];;
  printf "    -w width         image width, default: 640\n" [];;
  printf "    -h height        image height, default: 480\n" [];;
  printf "    -v               be verbose.\n" [].

Definition checkCapabilities (e : env) (vi : videoInfo_t) : M (bool * videoInfo_t) :=
  r ← xioctl (fd vi) VIDIOC_QUERYCAP (e_querycap e);
  if r <? 0 then
    perror "ioctl(VIDIOC_QUERYCAP)";; mret (false, vi)
  else
    let vi := set_caps vi (e_caps e) in
    (if verbose vi then
       printf "Driver: %s\n" [ArgStr (driver (caps vi))];;
       printf "Device: %s\n" [ArgStr (card (caps vi))];;
       printf "Caps  : %08x\n" [ArgHex (capabilities (caps vi))]
     else mret tt);;
    if Z.land (capabilities (caps vi)) V4L2_CAP_VIDEO_CAPTURE =? 0 then
      fprintf_stderr "Device does not support video capture\n" [];;
      mret (false, vi)
    else if Z.land (capabilities (caps vi)) V4L2_CAP_STREAMING =? 0 then
      fprintf_stderr "Device does not support streaming i/o\n" [];;
      mret (false, vi)
    else mret (true, vi).

Definition setFormat (e : env) (vi : videoInfo_t) : M (bool * videoInfo_t) :=
  let vi := set_fmt vi (Format V4L2_BUF_TYPE_VIDEO_CAPTURE
                               (wrap_u32 (width vi)) (wrap_u32 (height vi))
                               V4L2_PIX_FMT_YUYV V4L2_FIELD_ANY) in
  r ← xioctl (fd vi) (VIDIOC_S_FMT (fmt vi)) (e_s_fmt e);
  if r <? 0 then
    perror "ioctl(VIDIOC_S_FMT)";; mret (false, vi)
  else
    r ← xioctl (fd vi) VIDIOC_G_FMT (e_g_fmt e);
    if r <? 0 then
      perror "ioctl(VIDIOC_C_FMT)";; mret (false, vi)
    else
      let vi := set_fmt vi (e_fmt e) in
      vi ← (if negb (pix_width (fmt vi) =? wrap_u32 (width vi)) then
              fprintf_stderr "Warning: Selected width (%d) adjusted by driver to %d\n"
                [ArgInt (width vi); ArgInt (wrap_int (pix_width (fmt vi)))];;
              mret (set_width vi (wrap_int (pix_width (fmt vi))))
            else mret vi);
      vi ← (if negb (pix_height (fmt vi) =? wrap_u32 (height vi)) then
              fprintf_stderr "Warning: Selected height (%d) adjusted by driver to %d\n"
                [ArgInt (height vi); ArgInt (wrap_int (pix_height (fmt vi)))];;
              mret (set_height vi (wrap_int (pix_height (fmt vi))))
            else mret vi);
      mret (true, vi).

Definition allocBuffer (e : env) (vi : videoInfo_t) : M (bool * videoInfo_t) :=
  r ← xioctl (fd vi)
        (VIDIOC_REQBUFS 1 V4L2_BUF_TYPE_VIDEO_CAPTURE V4L2_MEMORY_MMAP)
        (e_reqbufs e);
  if r <? 0 then
    errno ← get_errno;
    (if errno =? EINVAL then
       fprintf_stderr "Capture device does not support mmapped buffers\n" []
     else mret tt);;
    perror "ioctl(VIDIOC_REQBUFS)";; mret (false, vi)
  else
    r ← xioctl (fd vi) (VIDIOC_QUERYBUF 0) (e_querybuf e);
    if r <? 0 then
      perror "ioctl(VIDIOC_QUERYBUF)";; mret (false, vi)
    else
      p ← mmap (e_length e) (e_offset e) (e_mmap e) (e_mem e);
      let vi := set_buffer vi p in
      if buffer vi =? MAP_FAILED then
        perror "mmap()";; mret (false, vi)
      else
        mret (true, set_buffer_len vi (e_length e)).

Definition releaseBuffer (vi : videoInfo_t) : M unit :=
  munmap (buffer vi) (buffer_len vi).

(** [compress_frame] is the function from [jpeg_create_compress] on,
    with the row buffer allocated here and the mapped frame as input. *)
Definition YUYV2JPEG (e : env) (file : string) (vi : videoInfo_t) : M bool :=
  row_buffer ← calloc (int_mul (width vi) 3) 1 (e_calloc e);
  if negb row_buffer then
    fprintf_stderr "Line buffer allocation failed\n" [];; mret false
  else
    yuyv ← get_mem;
    match compress_frame (width vi) (height vi) yuyv with
    | None => fault
    | Some j => jpeg_write file j;; mret true
    end.

Definition saveImage (e : env) (fname : string) (vi : videoInfo_t) : M bool :=
  file ← fopen_wb fname (e_fopen e);
  if negb file then
    perror "fopen()";; mret false
  else
    YUYV2JPEG e fname vi;;
    fclose fname;;
    printf "Saved image to %s\n" [ArgStr fname];;
    mret true.

Definition captureImage (c : cycle_env) (vi : videoInfo_t) : M bool :=
  r ← xioctl (fd vi) (VIDIOC_QBUF 0) (c_qbuf c);
  if r <? 0 then
    perror "ioctl(VIDIOC_QBUF)";; mret false
  else
    r ← xioctl (fd vi) VIDIOC_STREAMON (c_streamon c);
    if r <? 0 then
      perror "ioctl(VIDIOC_STREAMON)";; mret false
    else
      rv ← select (fd vi) 5 (c_select c);
      if rv <? 0 then
        perror "select";; mret false
      else if rv =? 0 then
        fprintf_stderr "Timed out waiting for frame\n" [];; mret false
      else
        r ← xioctl (fd vi) VIDIOC_DQBUF (c_dqbuf c);
        if r <? 0 then
          perror "ioctl(VIDIOC_DQBUF)";; mret false
        else
          r ← xioctl (fd vi) VIDIOC_STREAMOFF (c_streamoff c);
          if r <? 0 then
            perror "ioctl(VIDIOC_STREAMOFF)";; mret false
          else mret true.

Definition initVideoDevice (e : env) (vi : videoInfo_t) (vdev : option string)
  : M (bool * videoInfo_t) :=
  match vdev with
  | None => mret (false, vi)
  | Some vdev =>
      f ← sys_open vdev (e_open e);
      let vi := set_fd vi f in
      if fd vi <? 0 then
        perror "open()";; mret (false, vi)
      else
        '(ok, vi) ← checkCapabilities e vi;
        if negb ok then
          close (fd vi);;
          mret (false, set_fd vi (-1))
        else mret (true, vi)
  end.

(** The local variables of [main] that the option loop sets. *)
Record config := Config {
  VI : videoInfo_t;
  videoDevice : string;
  outputFile : string
}.

Definition initial_config : config :=
  Config (VideoInfo DEFAULT_WIDTH DEFAULT_HEIGHT (-1)
                    (Capability "" "" 0) (Format 0 0 0 0 0) 0 0 false)
         DEFAULT_VIDEODEV DEFAULT_OUTPUTFILE.

Section Main.

(** [atoi] of the C library. *)
Variable atoi : string → Z.

(** The body of the [switch] for one option that getopt() returned, [i]
    with its [optarg]; [None] is the [default:] case after it printed
    the usage, where [main] returns 1. *)
Definition option_case (i : ascii) (optarg : string) (c : config)
  : M (option config) :=
  if decide (i = "d"%char) then
    mret (Some (Config (VI c) optarg (outputFile c)))
  else if decide (i = "o"%char) then
    mret (Some (Config (VI c) (videoDevice c) optarg))
  else if decide (i = "w"%char) then
    let vi := set_width (VI c) (atoi optarg) in
    vi ← (if width vi =? 0 then
            fprintf_stderr "Invalid width, using default\n" [];;
            mret (set_width vi DEFAULT_WIDTH)
          else mret vi);
    mret (Some (Config vi (videoDevice c) (outputFile c)))
  else if decide (i = "h"%char) then
    let vi := set_height (VI c) (atoi optarg) in
    vi ← (if height vi =? 0 then
            fprintf_stderr "Invalid height, using default\n" [];;
            mret (set_height vi DEFAULT_HEIGHT)
          else mret vi);
    mret (Some (Config vi (videoDevice c) (outputFile c)))
  else if decide (i = "v"%char) then
    mret (Some (Config (set_verbose (VI c) true) (videoDevice c) (outputFile c)))
  else
    printUsage;; mret None.

(** [while ((i = getopt(argc, argv, "d:o:w:h:v")) != EOF)] over the
    options getopt() returns, in order. *)
Fixpoint option_loop (opts : list (ascii * string)) (c : config)
  : M (option config) :=
  match opts with
  | [] => mret (Some c)
  | (i, optarg) :: rest =>
      r ← option_case i optarg c;
      match r with
      | None => mret None
      | Some c' => option_loop rest c'
      end
  end.

(** [main]: its result is the exit status. *)
Definition main (opts : list (ascii * string)) (e : env) : M Z :=
  r ← option_loop opts initial_config;
  match r with
  | None => mret 1
  | Some c =>
      '(ok, vi) ← initVideoDevice e (VI c) (Some (videoDevice c));
      if negb ok then mret 1
      else
        '(ok, vi) ← setFormat e vi;
        if negb ok then close (fd vi);; mret 1
        else
          '(ok, vi) ← allocBuffer e vi;
          if negb ok then close (fd vi);; mret 1
          else
            ok ← captureImage (e_discard e) vi;
            if negb ok then
              fprintf_stderr "Error capturing initial frame, exiting\n" [];;
              releaseBuffer vi;;
              close (fd vi);;
              mret 1
            else
              ok ← captureImage (e_live e) vi;
              (if ok : bool then saveImage e (outputFile c) vi;; mret tt
               else mret tt);;
              releaseBuffer vi;;
              close (fd vi);;
              mret 0
  end.

End Main.

(** ** Reference definitions used by the statements *)

(** A decimal [atoi] for concrete runs: white space, an optional sign,
    then digits up to the first other character. *)
Definition is_space (c : ascii) : bool :=
  let n := nat_of_ascii c in ((n =? 32) || ((9 <=? n) && (n <=? 13)))%nat.

Fixpoint skip_space (s : string) : string :=
  match s with
  | String c s' => if is_space c then skip_space s' else s
  | EmptyString => s
  end.

Fixpoint atoi_digits (s : string) (acc : Z) : Z :=
  match s with
  | String c s' =>
      let n := nat_of_ascii c in
      if ((48 <=? n) && (n <=? 57))%nat
      then atoi_digits s' (10 * acc + Z.of_nat (n - 48))
      else acc
  | EmptyString => acc
  end.

Definition atoi_c (s : string) : Z :=
  match skip_space s with
  | String "-" s' => wrap_int (- atoi_digits s' 0)
  | String "+" s' => wrap_int (atoi_digits s' 0)
  | s' => wrap_int (atoi_digits s' 0)
  end.

(** The conversion as the specification words it: one output pixel from
    a luma sample and the chroma pair, on unbounded integers. *)
Definition clamp255 (x : Z) : Z := Z.max 0 (Z.min 255 x).

Definition spec_rgb (Y U V : Z) : list Z :=
  let y := Z.shiftl Y 8 in
  let u := U - 128 in
  let v := V - 128 in
  [clamp255 (Z.shiftr (y + 359 * v) 8);
   clamp255 (Z.shiftr (y - 88 * u - 183 * v) 8);
   clamp255 (Z.shiftr (y + 454 * u) 8)].

(** A whole buffer of Y0,U,Y1,V groups, two output pixels per group. *)
Fixpoint spec_convert (buf : list byte) : list Z :=
  match buf with
  | Y0 :: U :: Y1 :: V :: rest =>
      spec_rgb (byte_val Y0) (byte_val U) (byte_val V)
        ++ spec_rgb (byte_val Y1) (byte_val U) (byte_val V)
        ++ spec_convert rest
  | _ => []
  end.

(** Scanline [i] of an image [w] pixels wide: its [2 * w] bytes. *)
Definition scanline_bytes (w : nat) (buf : list byte) (i : nat) : list byte :=
  take (2 * w) (drop (2 * w * i) buf).

(** The scanlines of an image of [w] by [h] pixels, as the
    specification describes them. *)
Definition spec_rows (w h : nat) (buf : list byte) : list (list Z) :=
  (λ i, spec_convert (scanline_bytes w buf i)) <$> seq 0 h.

(** The compressor after all its scanlines were written. *)
Definition finished (j : jpeg_compress_struct) (rows : list (list Z))
  : jpeg_compress_struct :=
  JpegInfo (image_width j) (image_height j) (input_components j)
           (jp_quality j) (image_height j) (jp_rows j ++ rows).

(** The 2 by 2 fixture: black luma 16, neutral chroma 128. *)
Definition fixture : list byte :=
  [Byte.x10; Byte.x80; Byte.x10; Byte.x80; Byte.x10; Byte.x80; Byte.x10; Byte.x80].

(** A channel value is within [tol] of [target]. *)
Definition within (tol target c : Z) : Prop := Z.abs (c - target) <= tol.

(** ** Classifying replies and events *)

Definition succeeds (k : reply) : bool := negb (rep_ret k <? 0).

Definition has_cap (c : v4l2_capability) (flag : Z) : bool :=
  negb (Z.land (capabilities c) flag =? 0).

(** The device opens and answers the capability query. *)
Definition query_ok (e : env) : bool :=
  negb (e_open e <? 0) && succeeds (e_querycap e).

(** Open, capability check, format negotiation and buffer allocation
    all succeed. *)
Definition setup_ok (e : env) : bool :=
  query_ok e
  && has_cap (e_caps e) V4L2_CAP_VIDEO_CAPTURE
  && has_cap (e_caps e) V4L2_CAP_STREAMING
  && succeeds (e_s_fmt e) && succeeds (e_g_fmt e)
  && succeeds (e_reqbufs e) && succeeds (e_querybuf e)
  && negb (e_mmap e =? MAP_FAILED).

(** The buffer is queued and streaming starts, so the wait is reached. *)
Definition reaches_wait (c : cycle_env) : bool :=
  succeeds (c_qbuf c) && succeeds (c_streamon c).

(** The three outcomes of the bounded wait. *)
Definition frame_ready (c : cycle_env) : bool := 0 <? c_select c.
Definition wait_error (c : cycle_env) : bool := c_select c <? 0.
Definition wait_timeout (c : cycle_env) : bool := c_select c =? 0.

(** Every step of a capture cycle succeeds. *)
Definition cycle_ok (c : cycle_env) : bool :=
  reaches_wait c && frame_ready c
  && succeeds (c_dqbuf c) && succeeds (c_streamoff c).

(** Events that request, map or unmap a buffer, or belong to a capture
    cycle. *)
Definition buffer_or_capture (ev : event) : bool :=
  match ev with
  | EvIoctl _ (VIDIOC_REQBUFS _ _ _) _ | EvIoctl _ (VIDIOC_QUERYBUF _) _
  | EvIoctl _ (VIDIOC_QBUF _) _ | EvIoctl _ VIDIOC_STREAMON _
  | EvIoctl _ VIDIOC_DQBUF _ | EvIoctl _ VIDIOC_STREAMOFF _
  | EvMmap _ _ _ | EvMunmap _ _ | EvSelect _ _ _ => true
  | _ => false
  end.

(** Events that touch the output file. *)
Definition file_event (ev : event) : bool :=
  match ev with
  | EvFopen _ _ | EvJpegWrite _ | EvFclose _ => true
  | _ => false
  end.

(** Messages written with printf or fprintf. *)
Definition output_event (ev : event) : bool :=
  match ev with
  | EvStdout _ _ | EvStderr _ _ => true
  | _ => false
  end.

(** Reports of a failed system call. *)
Definition is_perror (ev : event) : bool :=
  match ev with
  | EvPerror _ => true
  | _ => false
  end.

(** The world with further events, newest first, on its trace. *)
Definition log (evs : list event) (w : world) : world :=
  World (evs ++ w_trace w) (w_fs w) (w_streaming w) (w_queued w)
        (w_mem w) (w_errno w).

(** What [main] does once the option loop has left it the
    configuration [c]. *)
Definition after_options (e : env) (c : config) : M Z :=
  '(ok, vi) ← initVideoDevice e (VI c) (Some (videoDevice c));
  if negb ok then mret 1
  else
    '(ok, vi) ← setFormat e vi;
    if negb ok then close (fd vi);; mret 1
    else
      '(ok, vi) ← allocBuffer e vi;
      if negb ok then close (fd vi);; mret 1
      else
        ok ← captureImage (e_discard e) vi;
        if negb ok then
          fprintf_stderr "Error capturing initial frame, exiting\n" [];;
          releaseBuffer vi;;
          close (fd vi);;
          mret 1
        else
          ok ← captureImage (e_live e) vi;
          (if ok : bool then saveImage e (outputFile c) vi;; mret tt
           else mret tt);;
          releaseBuffer vi;;
          close (fd vi);;
          mret 0.

(** What [main] does with the result of [setFormat]. *)
Definition after_format (e : env) (c : config) (r : bool * videoInfo_t) : M Z :=
  let '(ok, vi) := r in
  if negb ok then close (fd vi);; mret 1
  else
    '(ok, vi) ← allocBuffer e vi;
    if negb ok then close (fd vi);; mret 1
    else
      ok ← captureImage (e_discard e) vi;
      if negb ok then
        fprintf_stderr "Error capturing initial frame, exiting\n" [];;
        releaseBuffer vi;;
        close (fd vi);;
        mret 1
      else
        ok ← captureImage (e_live e) vi;
        (if ok : bool then saveImage e (outputFile c) vi;; mret tt
         else mret tt);;
        releaseBuffer vi;;
        close (fd vi);;
        mret 0.

(** ** The results of the setup functions, in closed form *)

Definition verbose_events (vi : videoInfo_t) (c : v4l2_capability) : list event :=
  if verbose vi then
    [EvStdout "Caps  : %08x\n" [ArgHex (capabilities c)];
     EvStdout "Device: %s\n" [ArgStr (card c)];
     EvStdout "Driver: %s\n" [ArgStr (driver c)]]
  else [].

Definition unsupported_message (c : v4l2_capability) : string :=
  if has_cap c V4L2_CAP_VIDEO_CAPTURE
  then "Device does not support streaming i/o\n"
  else "Device does not support video capture\n".

(** The format [setFormat] asks for. *)
Definition requested_format (vi : videoInfo_t) : v4l2_format :=
  Format V4L2_BUF_TYPE_VIDEO_CAPTURE (wrap_u32 (width vi))
         (wrap_u32 (height vi)) V4L2_PIX_FMT_YUYV V4L2_FIELD_ANY.

(** The VIDIOC_S_FMT call that asks the device of [e] for [w] by [h]. *)
Definition format_request (e : env) (w h : Z) : event :=
  EvIoctl (e_open e)
          (VIDIOC_S_FMT (Format V4L2_BUF_TYPE_VIDEO_CAPTURE (wrap_u32 w)
                                (wrap_u32 h) V4L2_PIX_FMT_YUYV V4L2_FIELD_ANY))
          (rep_ret (e_s_fmt e)).

Definition width_differs (f : v4l2_format) (vi : videoInfo_t) : bool :=
  negb (pix_width f =? wrap_u32 (width vi)).
Definition height_differs (f : v4l2_format) (vi : videoInfo_t) : bool :=
  negb (pix_height f =? wrap_u32 (height vi)).

Definition width_warning (f : v4l2_format) (vi : videoInfo_t) : event :=
  EvStderr "Warning: Selected width (%d) adjusted by driver to %d\n"
           [ArgInt (width vi); ArgInt (wrap_int (pix_width f))].
Definition height_warning (f : v4l2_format) (vi : videoInfo_t) : event :=
  EvStderr "Warning: Selected height (%d) adjusted by driver to %d\n"
           [ArgInt (height vi); ArgInt (wrap_int (pix_height f))].

(** The session after a successful [setFormat] that read back [f]. *)
Definition negotiated (f : v4l2_format) (vi : videoInfo_t) : videoInfo_t :=
  VideoInfo (if width_differs f vi then wrap_int (pix_width f) else width vi)
            (if height_differs f vi then wrap_int (pix_height f) else height vi)
            (fd vi) (caps vi) f (buffer vi) (buffer_len vi) (verbose vi).

Definition format_events (e : env) (vi : videoInfo_t) : list event :=
  (if height_differs (e_fmt e) vi then [height_warning (e_fmt e) vi] else [])
  ++ (if width_differs (e_fmt e) vi then [width_warning (e_fmt e) vi] else [])
  ++ [EvIoctl (fd vi) VIDIOC_G_FMT (rep_ret (e_g_fmt e));
      EvIoctl (fd vi) (VIDIOC_S_FMT (requested_format vi)) (rep_ret (e_s_fmt e))].

Definition alloc_events (e : env) (vi : videoInfo_t) : list event :=
  [EvMmap (e_length e) (e_offset e) (e_mmap e);
   EvIoctl (fd vi) (VIDIOC_QUERYBUF 0) (rep_ret (e_querybuf e));
   EvIoctl (fd vi) (VIDIOC_REQBUFS 1 V4L2_BUF_TYPE_VIDEO_CAPTURE V4L2_MEMORY_MMAP)
           (rep_ret (e_reqbufs e))].

(** The events of a capture cycle up to and including the wait. *)
Definition wait_events (c : cycle_env) (vi : videoInfo_t) : list event :=
  [EvSelect (fd vi) 5 (c_select c);
   EvIoctl (fd vi) VIDIOC_STREAMON (rep_ret (c_streamon c));
   EvIoctl (fd vi) (VIDIOC_QBUF 0) (rep_ret (c_qbuf c))].

Definition cycle_events (c : cycle_env) (vi : videoInfo_t) : list event :=
  [EvIoctl (fd vi) VIDIOC_STREAMOFF (rep_ret (c_streamoff c));
   EvIoctl (fd vi) VIDIOC_DQBUF (rep_ret (c_dqbuf c))]
  ++ wait_events c vi.

(** The session that reaches the capture cycles. *)
Definition session (e : env) (c : config) : videoInfo_t :=
  let vi1 := set_caps (set_fd (VI c) (e_open e)) (e_caps e) in
  set_buffer_len (set_buffer (negotiated (e_fmt e) vi1) (e_mmap e)) (e_length e).

(** The events of a successful setup, newest first. *)
Definition setup_events (e : env) (c : config) : list event :=
  let vi1 := set_caps (set_fd (VI c) (e_open e)) (e_caps e) in
  alloc_events e (negotiated (e_fmt e) vi1)
  ++ format_events e vi1
  ++ verbose_events (VI c) (e_caps e)
  ++ [EvIoctl (e_open e) VIDIOC_QUERYCAP (rep_ret (e_querycap e));
      EvOpen (videoDevice c) (e_open e)].

Definition teardown_events (vi : videoInfo_t) : list event :=
  [EvClose (fd vi); EvMunmap (buffer vi) (buffer_len vi)].

(** The world when [main] returns after a setup that succeeded:
    nothing mapped, the device released, [evs] logged after the setup. *)
Definition torn_down (e : env) (c : config) (evs : list event) (w : world)
  : world :=
  with_device false false
    (with_mem None
       (log (teardown_events (session e c) ++ evs ++ setup_events e c) w)).

(** The events of [saveImage] once the file is open. *)
Definition save_events (e : env) (c : config) (ok : bool) : list event :=
  [EvStdout "Saved image to %s\n" [ArgStr (outputFile c)];
   EvFclose (outputFile c)]
  ++ (if ok then [EvJpegWrite (outputFile c)]
      else [EvStderr "Line buffer allocation failed\n" []])
  ++ [EvCalloc (int_mul (width (session e c)) 3) 1 ok;
      EvFopen (outputFile c) true].

(** A computation only adds events to the trace. *)
Definition extends {A} (m : M A) : Prop :=
  ∀ w r w', m w = Some (r, w') → w_trace w `suffix_of` w_trace w'.

(** ** Concrete environments *)

Definition good : reply := Reply 0 0 [].
Definition failed (errno : Z) : reply := Reply (-1) errno [].

Definition sample_frame : list byte :=
  [Byte.x52; Byte.x5a; Byte.x91; Byte.xf0; Byte.xff; Byte.x00; Byte.x00; Byte.xff].

Definition good_cycle (frame : list byte) : cycle_env :=
  CycleEnv good good 1 (Reply 0 0 frame) good.
Definition timeout_cycle : cycle_env := CycleEnv good good 0 good good.
Definition wait_error_cycle : cycle_env := CycleEnv good good (-1) good good.

Definition capture_caps : v4l2_capability :=
  Capability "uvcvideo" "camera" (Z.lor V4L2_CAP_VIDEO_CAPTURE V4L2_CAP_STREAMING).

(** A device that accepts everything and adjusts 640x480 to 2x2. *)
Definition good_env : env :=
  Env 3 good capture_caps good good
      (Format V4L2_BUF_TYPE_VIDEO_CAPTURE 2 2 V4L2_PIX_FMT_YUYV 1)
      good good 8 0 4096 fixture
      (good_cycle fixture) (good_cycle sample_frame) true true.

Definition with_caps (e : env) (c : v4l2_capability) : env :=
  Env (e_open e) (e_querycap e) c (e_s_fmt e) (e_g_fmt e) (e_fmt e)
      (e_reqbufs e) (e_querybuf e) (e_length e) (e_offset e) (e_mmap e)
      (e_mem e) (e_discard e) (e_live e) (e_fopen e) (e_calloc e).
Definition with_cycles (e : env) (d l : cycle_env) : env :=
  Env (e_open e) (e_querycap e) (e_caps e) (e_s_fmt e) (e_g_fmt e) (e_fmt e)
      (e_reqbufs e) (e_querybuf e) (e_length e) (e_offset e) (e_mmap e)
      (e_mem e) d l (e_fopen e) (e_calloc e).

(** The session of [good_env] under the default configuration. *)
Definition open_session : videoInfo_t := session good_env initial_config.

(** The live cycle times out after a good discard cycle. *)
Definition live_timeout_env : env :=
  with_cycles good_env (good_cycle fixture) timeout_cycle.

(** The discard cycle times out. *)
Definition discard_timeout_env : env :=
  with_cycles good_env timeout_cycle (good_cycle sample_frame).

(** The capability query itself fails (ENOTTY). *)
Definition query_fails_env : env :=
  Env 3 (failed 25) capture_caps good good (e_fmt good_env) good good 8 0
      4096 fixture (good_cycle fixture) (good_cycle sample_frame) true true.

(** A device that captures but cannot stream. *)
Definition no_streaming_env : env :=
  with_caps good_env (Capability "radio" "tuner" V4L2_CAP_VIDEO_CAPTURE).

(** ** The conversion seen as one stream of pixels *)

(** The conversion state in front of the pixel with index
    [2 * k + (if second then 1 else 0)], counted over the whole image. *)
Definition pixel_state (k : nat) (second : bool) : conv_state :=
  ConvState (if second then 1 else 0) (4 * k).

(** The output bytes of the [n] pixels from index [p] on in the
    group-by-group conversion of the whole buffer. *)
Definition flat_pixels (buf : list byte) (p n : nat) : list Z :=
  take (3 * n) (drop (3 * p) (spec_convert buf)).

(** [n] scanlines of [w] pixels cut out of that stream from pixel [p]
    on, and the scanlines of a [w] by [h] image. *)
Definition flat_rows_from (p w n : nat) (buf : list byte) : list (list Z) :=
  (λ i, flat_pixels buf (p + w * i) w) <$> seq 0 n.

Definition flat_rows (w h : nat) (buf : list byte) : list (list Z) :=
  flat_rows_from 0 w h buf.

(** ** Resources acquired and released along a trace *)

Fixpoint count (p : event → bool) (t : list event) : nat :=
  match t with
  | [] => 0
  | ev :: t' => (if p ev then 1 else 0) + count p t'
  end.

Definition is_open_ok (ev : event) : bool :=
  match ev with EvOpen _ ret => negb (ret <? 0) | _ => false end.
Definition is_close (ev : event) : bool :=
  match ev with EvClose _ => true | _ => false end.
Definition is_mmap_ok (ev : event) : bool :=
  match ev with EvMmap _ _ ret => negb (ret =? MAP_FAILED) | _ => false end.
Definition is_munmap (ev : event) : bool :=
  match ev with EvMunmap _ _ => true | _ => false end.

Definition opens (w : world) : nat := count is_open_ok (w_trace w).
Definition closes (w : world) : nat := count is_close (w_trace w).
Definition maps (w : world) : nat := count is_mmap_ok (w_trace w).
Definition unmaps (w : world) : nat := count is_munmap (w_trace w).

(** The four counts grow by the given numbers from [w] to [w']. *)
Definition grows (w w' : world) (o c m u : nat) : Prop :=
  opens w' = (opens w + o)%nat ∧ closes w' = (closes w + c)%nat
  ∧ maps w' = (maps w + m)%nat ∧ unmaps w' = (unmaps w + u)%nat.

(** ** When each setup step succeeds *)

Definition init_ok (e : env) : bool :=
  query_ok e && has_cap (e_caps e) V4L2_CAP_VIDEO_CAPTURE
  && has_cap (e_caps e) V4L2_CAP_STREAMING.
Definition fmt_ok (e : env) : bool :=
  succeeds (e_s_fmt e) && succeeds (e_g_fmt e).
Definition alloc_ok (e : env) : bool :=
  succeeds (e_reqbufs e) && succeeds (e_querybuf e)
  && negb (e_mmap e =? MAP_FAILED).

(** ** Messages and calls, for counting *)

(** [ev] is the fprintf(stderr, ...) of the format string [s]. *)
Definition says (s : string) (ev : event) : bool :=
  match ev with EvStderr f _ => String.eqb f s | _ => false end.
(** [ev] is perror([s]). *)
Definition reports (s : string) (ev : event) : bool :=
  match ev with EvPerror f => String.eqb f s | _ => false end.
(** [ev] is an ioctl whose request satisfies [p]. *)
Definition requests (p : ioctl_request → bool) (ev : event) : bool :=
  match ev with EvIoctl _ req _ => p req | _ => false end.
Definition is_mmap (ev : event) : bool :=
  match ev with EvMmap _ _ _ => true | _ => false end.

Definition is_g_fmt (r : ioctl_request) : bool :=
  match r with VIDIOC_G_FMT => true | _ => false end.
Definition is_querybuf (r : ioctl_request) : bool :=
  match r with VIDIOC_QUERYBUF _ => true | _ => false end.
Definition is_streamon (r : ioctl_request) : bool :=
  match r with VIDIOC_STREAMON => true | _ => false end.
Definition is_dqbuf (r : ioctl_request) : bool :=
  match r with VIDIOC_DQBUF => true | _ => false end.
Definition is_streamoff (r : ioctl_request) : bool :=
  match r with VIDIOC_STREAMOFF => true | _ => false end.
Definition any_request (r : ioctl_request) : bool := true.

(** A failure report: perror or a message on stderr. *)
Definition is_report (ev : event) : bool :=
  match ev with EvPerror _ | EvStderr _ _ => true | _ => false end.

(** From [w] to [w'] the trace gained [n] events satisfying [p]. *)
Definition emitted (p : event → bool) (w w' : world) (n : nat) : Prop :=
  count p (w_trace w') = (count p (w_trace w) + n)%nat.

(** The net effect of a run on descriptors, mappings and files. *)
Definition settled (w w' : world) : Prop :=
  (opens w' + closes w = closes w' + opens w)%nat
  ∧ (maps w' + unmaps w = unmaps w' + maps w)%nat
  ∧ (opens w' <= opens w + 1)%nat ∧ (maps w' <= maps w + 1)%nat.


(** ** Reading the option list *)

(** The option characters of the getopt() string "d:o:w:h:v". *)
Definition known_option (i : ascii) : bool :=
  bool_decide (i = "d"%char) || bool_decide (i = "o"%char)
  || bool_decide (i = "w"%char) || bool_decide (i = "h"%char)
  || bool_decide (i = "v"%char).

(** The argument of the last occurrence of option [i]. *)
Fixpoint last_arg (i : ascii) (opts : list (ascii * string)) : option string :=
  match opts with
  | [] => None
  | (j, a) :: rest =>
      match last_arg i rest with
      | Some b => Some b
      | None => if decide (j = i) then Some a else None
      end
  end.

(** The size a [-w] or [-h] argument stands for. *)
Definition chosen_size (atoi : string → Z) (dflt current : Z)
    (o : option string) : Z :=
  match o with
  | None => current
  | Some s => if atoi s =? 0 then dflt else atoi s
  end.

(** The events of [printUsage], newest first. *)
Definition usage_events : list event :=
  [EvStdout "    -v               be verbose.\n" [];
   EvStdout "    -h height        image height, default: 480\n" [];
   EvStdout "    -w width         image width, default: 640\n" [];
   EvStdout "    -o <path>        image output file, default: %s\n"
            [ArgStr DEFAULT_OUTPUTFILE];
   EvStdout "    -d <path>        video device, default: %s\n"
            [ArgStr DEFAULT_VIDEODEV];
   EvStdout "            [ -h height ] [ -v ]\n\n" [];
   EvStdout "Usage: vcap [-d path ] [-o path ] [ -w width ]\n" []].

Definition is_stdout (ev : event) : bool :=
  match ev with EvStdout _ _ => true | _ => false end.

(** ** More concrete inputs *)

(** Three groups: six pixels, enough for a 3 by 2 image. *)
Definition odd_frame : list byte :=
  sample_frame ++ [Byte.x10; Byte.x80; Byte.xeb; Byte.x80].

(** mmap() fails after everything before it succeeded. *)
Definition mmap_fails_env : env :=
  Env 3 good capture_caps good good (e_fmt good_env) good good 8 0
      MAP_FAILED [] (good_cycle fixture) (good_cycle sample_frame) true true.

(** A world in which the frame buffer is mapped. *)
Definition mapped_world : world := with_mem (Some fixture) (init_world ∅).

Definition sample_options : list (ascii * string) :=
  [("w"%char, "320"); ("d"%char, "/dev/video1"); ("w"%char, "0");
   ("d"%char, "/dev/video2"); ("v"%char, "")].

(** * Properties *)

(** ** Integers *)

Lemma wrap_int_id z : is_int z → wrap_int z = z.
Proof.
  unfold is_int, wrap_int, INT_MIN, INT_MAX. intros H.
  rewrite Z.mod_small; lia.
Qed.

Lemma wrap_u32_id z : is_u32 z → wrap_u32 z = z.
Proof. unfold is_u32, wrap_u32. intros H. apply Z.mod_small. lia. Qed.

Lemma wrap_u32_is_u32 z : is_u32 (wrap_u32 z).
Proof. unfold is_u32, wrap_u32. apply Z.mod_pos_bound. lia. Qed.

Lemma wrap_int_is_int z : is_int (wrap_int z).
Proof.
  unfold is_int, wrap_int, INT_MIN, INT_MAX.
  pose proof (Z.mod_pos_bound (z + 2147483648) 4294967296). lia.
Qed.

(** Reading an [int] back from its [__u32] image gives the [int]. *)
Lemma wrap_int_u32 z : is_int z → wrap_int (wrap_u32 z) = z.
Proof.
  unfold is_int, wrap_int, wrap_u32, INT_MIN, INT_MAX. intros H.
  rewrite Zplus_mod_idemp_l. rewrite Z.mod_small; lia.
Qed.

(** Storing a [__u32] in an [int] keeps its 32 bits. *)
Lemma wrap_u32_int z : is_u32 z → wrap_u32 (wrap_int z) = z.
Proof.
  unfold is_u32, wrap_int, wrap_u32. intros H.
  rewrite Zminus_mod_idemp_l.
  replace (z + 2147483648 - 2147483648) with z by lia.
  apply Z.mod_small. lia.
Qed.

Lemma byte_val_range b : 0 <= byte_val b <= 255.
Proof.
  unfold byte_val. pose proof (Byte.to_N_bounded b). lia.
Qed.

Lemma CLAMP_clamp255 r : wrap_u8 (CLAMP r 0 255) = clamp255 r.
Proof.
  unfold CLAMP, clamp255, wrap_u8.
  destruct (Z.ltb_spec r 0); [rewrite Z.mod_small; lia|].
  destruct (r >? 255) eqn:E.
  - apply Z.gtb_lt in E. rewrite Z.mod_small; lia.
  - rewrite Z.gtb_ltb in E. apply Z.ltb_ge in E. rewrite Z.mod_small; lia.
Qed.


(** ** The pixel arithmetic does not overflow *)

Lemma pixel_arith (yb ub vb : byte) :
  let y := int_shl (byte_val yb) 8 in
  let u := int_sub (byte_val ub) 128 in
  let v := int_sub (byte_val vb) 128 in
  [wrap_u8 (CLAMP (int_shr (int_add y (int_mul 359 v)) 8) 0 255);
   wrap_u8 (CLAMP (int_shr (int_sub (int_sub y (int_mul 88 u)) (int_mul 183 v)) 8) 0 255);
   wrap_u8 (CLAMP (int_shr (int_add y (int_mul 454 u)) 8) 0 255)]
  = spec_rgb (byte_val yb) (byte_val ub) (byte_val vb).
Proof.
  pose proof (byte_val_range yb) as Hy.
  pose proof (byte_val_range ub) as Hu.
  pose proof (byte_val_range vb) as Hv.
  cbv zeta. unfold spec_rgb, int_shl, int_sub, int_add, int_mul, int_shr.
  rewrite !CLAMP_clamp255.
  rewrite Z.shiftl_mul_pow2 by lia. change (2 ^ 8) with 256.
  rewrite (wrap_int_id (byte_val yb * 256)) by (unfold is_int, INT_MIN, INT_MAX; lia).
  rewrite (wrap_int_id (byte_val ub - 128)) by (unfold is_int, INT_MIN, INT_MAX; lia).
  rewrite (wrap_int_id (byte_val vb - 128)) by (unfold is_int, INT_MIN, INT_MAX; lia).
  rewrite (wrap_int_id (359 * _)), (wrap_int_id (88 * _)),
    (wrap_int_id (183 * _)), (wrap_int_id (454 * _))
    by (unfold is_int, INT_MIN, INT_MAX; lia).
  rewrite (wrap_int_id (_ - 88 * _)) by (unfold is_int, INT_MIN, INT_MAX; lia).
  rewrite !wrap_int_id by (unfold is_int, INT_MIN, INT_MAX; lia).
  reflexivity.
Qed.

(** ** The loops of the conversion *)

Lemma pixel_body_first buf off yb ub vb :
  buf !! (off + 0)%nat = Some yb → buf !! (off + 1)%nat = Some ub →
  buf !! (off + 3)%nat = Some vb →
  pixel_body buf (ConvState 0 off)
  = Some (spec_rgb (byte_val yb) (byte_val ub) (byte_val vb), ConvState 1 off).
Proof.
  intros Hy Hu Hv. unfold pixel_body. cbn [cs_z cs_yuyv].
  change (0 =? 0) with true. cbv iota.
  rewrite Hy, Hu, Hv. cbn [mbind option_bind].
  rewrite pixel_arith. reflexivity.
Qed.

Lemma pixel_body_second buf off yb ub vb :
  buf !! (off + 2)%nat = Some yb → buf !! (off + 1)%nat = Some ub →
  buf !! (off + 3)%nat = Some vb →
  pixel_body buf (ConvState 1 off)
  = Some (spec_rgb (byte_val yb) (byte_val ub) (byte_val vb),
          ConvState 0 (off + 4)).
Proof.
  intros Hy Hu Hv. unfold pixel_body. cbn [cs_z cs_yuyv].
  change (1 =? 0) with false. cbv iota.
  rewrite Hy, Hu, Hv. cbn [mbind option_bind].
  rewrite pixel_arith. reflexivity.
Qed.

(** A scanline of [2 * m] pixels starting on a group boundary converts
    the next [4 * m] bytes group by group. *)
Lemma row_loop_S n size ptr (buf : list byte) st :
  ptr + 3 <= size →
  row_loop (S n) size ptr buf st
  = '(px, st1) ← pixel_body buf st;
    '(rest, st2) ← row_loop n size (ptr + 3) buf st1;
    Some (px ++ rest, st2).
Proof.
  intros Hp. cbn [row_loop]. apply Z.leb_le in Hp. rewrite Hp. reflexivity.
Qed.

Lemma row_loop_even (buf : list byte) size m : ∀ off ptr,
  (off + 4 * m <= length buf)%nat →
  ptr + 3 * Z.of_nat (2 * m) <= size →
  row_loop (2 * m) size ptr buf (ConvState 0 off)
  = Some (spec_convert (take (4 * m) (drop off buf)), ConvState 0 (off + 4 * m)).
Proof.
  induction m as [|m IH]; intros off ptr Hlen Hsize.
  - cbn. rewrite take_0, Nat.add_0_r. reflexivity.
  - replace (2 * S m)%nat with (S (S (2 * m))) by lia.
    replace (4 * S m)%nat with (S (S (S (S (4 * m))))) by lia.
    assert (Hd : (4 + 4 * m <= length (drop off buf))%nat)
      by (rewrite length_drop; lia).
    destruct (drop off buf) as [|a [|b [|c [|d rest]]]] eqn:E;
      cbn [length] in Hd; try lia.
    assert (Hk : ∀ k, buf !! (off + k)%nat = (a :: b :: c :: d :: rest) !! k)
      by (intros k; rewrite <- E, lookup_drop; reflexivity).
    assert (Hrest : drop (off + 4) buf = rest)
      by (rewrite <- drop_drop, E; reflexivity).
    rewrite row_loop_S by lia.
    rewrite (pixel_body_first buf off a b d)
      by apply Hk.
    cbn [mbind option_bind].
    rewrite row_loop_S by lia.
    rewrite (pixel_body_second buf off c b d) by apply Hk.
    cbn [mbind option_bind].
    rewrite IH by lia. cbn [mbind option_bind].
    rewrite Hrest. cbn [take spec_convert].
    do 3 f_equal. lia.
Qed.

Lemma spec_rows_S w n (buf : list byte) :
  spec_rows w (S n) buf
  = spec_convert (take (2 * w) buf) :: spec_rows w n (drop (2 * w) buf).
Proof.
  unfold spec_rows. cbn [seq fmap list_fmap]. f_equal.
  - unfold scanline_bytes. rewrite Nat.mul_0_r. reflexivity.
  - rewrite <- fmap_S_seq, <- list_fmap_compose. apply list_fmap_ext.
    intros _ i _. cbn. unfold scanline_bytes. rewrite drop_drop.
    do 3 f_equal. lia.
Qed.

(** The scanline loop over an image [2 * m] pixels wide with [n] lines
    left: it stops by its own test, with [n] more scanlines written. *)
Lemma scan_loop_even (buf : list byte) size m : ∀ n fuel j off,
  image_height j - next_scanline j = Z.of_nat n →
  (n <= fuel)%nat →
  (off + 4 * m * n <= length buf)%nat →
  3 * Z.of_nat (2 * m) <= size →
  scan_loop fuel size (Z.of_nat (2 * m)) buf j (ConvState 0 off)
  = Some (finished j (spec_rows (2 * m) n (drop off buf)),
          ConvState 0 (off + 4 * m * n)).
Proof.
  induction n as [|n IH]; intros fuel j off Hn Hfuel Hlen Hsize.
  - assert (Hlt : (next_scanline j <? image_height j) = false)
      by (apply Z.ltb_ge; lia).
    destruct fuel; cbn [scan_loop]; rewrite Hlt;
      (f_equal; f_equal; [| f_equal; lia]);
      destruct j as [iw ih ic q ns rows]; unfold finished, spec_rows;
      cbn in *; rewrite app_nil_r; f_equal; lia.
  - assert (Hlt : (next_scanline j <? image_height j) = true)
      by (apply Z.ltb_lt; lia).
    destruct fuel as [|fuel]; [lia|]. cbn [scan_loop]. rewrite Hlt.
    rewrite Nat2Z.id, row_loop_even by lia. cbn [mbind option_bind].
    rewrite (IH fuel (jpeg_write_scanlines j _) (off + 4 * m)%nat);
      [| cbn; lia | lia | lia | lia].
    f_equal. f_equal.
    + rewrite spec_rows_S. unfold finished, jpeg_write_scanlines.
      cbn [image_width image_height input_components jp_quality jp_rows].
      rewrite <- app_assoc. cbn [app]. rewrite drop_drop.
      replace (2 * (2 * m))%nat with (4 * m)%nat by lia. reflexivity.
    + f_equal. lia.
Qed.

(** The encoder accepts an image of at most [JPEG_MAX_DIMENSION] by
    [JPEG_MAX_DIMENSION] pixels that is not empty. *)
Lemma jpeg_start_compress_ok (w h q : Z) :
  0 < w <= JPEG_MAX_DIMENSION → 0 < h <= JPEG_MAX_DIMENSION →
  jpeg_start_compress (JpegInfo w h 3 q 0 []) = Some (JpegInfo w h 3 q 0 []).
Proof.
  intros Hw Hh. unfold jpeg_start_compress.
  cbn [image_width image_height input_components].
  rewrite Z.gtb_ltb, (Z.gtb_ltb w).
  destruct (Z.leb_spec h 0); [lia|]. destruct (Z.leb_spec w 0); [lia|].
  destruct (Z.ltb_spec JPEG_MAX_DIMENSION h); [lia|].
  destruct (Z.ltb_spec JPEG_MAX_DIMENSION w); [lia|]. reflexivity.
Qed.

(** For such a width the row buffer has exactly three bytes per pixel. *)
Lemma row_buffer_size (w : Z) :
  0 < w <= JPEG_MAX_DIMENSION → wrap_size (int_mul w 3) = 3 * w.
Proof.
  unfold JPEG_MAX_DIMENSION, int_mul, wrap_size. intros Hw.
  rewrite wrap_int_id by (unfold is_int, INT_MIN, INT_MAX; lia).
  rewrite Z.mod_small; lia.
Qed.

(** The image [YUYV2JPEG] hands to the compressor, for an even width. *)
Lemma compress_frame_even (w h : Z) (buf : list byte) :
  0 < w <= JPEG_MAX_DIMENSION → 0 < h <= JPEG_MAX_DIMENSION →
  Z.even w = true →
  2 * w * h <= Z.of_nat (length buf) →
  compress_frame w h buf
  = Some (JpegInfo w h 3 DEFAULT_JPEG_QUALITY h
                   (spec_rows (Z.to_nat w) (Z.to_nat h) buf)).
Proof.
  intros Hw Hh Hev Hlen.
  destruct (Zeven_ex w) as [m' Hm]; [apply Zeven_bool_iff; exact Hev|].
  set (m := Z.to_nat m').
  assert (Hwm : w = Z.of_nat (2 * m)) by lia.
  unfold compress_frame.
  rewrite row_buffer_size by assumption.
  rewrite !wrap_u32_id by (unfold is_u32, JPEG_MAX_DIMENSION in *; lia).
  rewrite jpeg_start_compress_ok by assumption.
  cbn [mbind option_bind image_height].
  pose proof (scan_loop_even buf (3 * w) m (Z.to_nat h) (Z.to_nat h)
                (JpegInfo w h 3 DEFAULT_JPEG_QUALITY 0 []) 0%nat) as Hs.
  rewrite <- Hwm in Hs. rewrite Hs; [| cbn; lia | lia | nia | lia].
  cbn [fmap option_fmap option_map fst]. rewrite drop_0.
  unfold finished. cbn.
  replace (Z.to_nat w) with (m + (m + 0))%nat by lia. reflexivity.
Qed.

(** ** Shape of the converted scanlines *)



(** The six bytes of group [k] of a converted scanline. *)
Lemma spec_convert_group (k : nat) : ∀ (l : list byte) Y0 U Y1 V,
  l !! (4 * k)%nat = Some Y0 → l !! (4 * k + 1)%nat = Some U →
  l !! (4 * k + 2)%nat = Some Y1 → l !! (4 * k + 3)%nat = Some V →
  take 6 (drop (6 * k) (spec_convert l))
  = spec_rgb (byte_val Y0) (byte_val U) (byte_val V)
    ++ spec_rgb (byte_val Y1) (byte_val U) (byte_val V).
Proof.
  induction k as [|k IH]; intros l Y0 U Y1 V H0 H1 H2 H3.
  - destruct l as [|a [|b [|c [|d rest]]]]; try discriminate.
    cbn in H0, H1, H2, H3. simplify_eq. reflexivity.
  - replace (4 * S k)%nat with (S (S (S (S (4 * k))))) in * by lia.
    replace (6 * S k)%nat with (6 + 6 * k)%nat by lia.
    destruct l as [|a [|b [|c [|d rest]]]]; try discriminate.
    cbn [spec_convert]. rewrite app_assoc, <- drop_drop.
    rewrite drop_app_length' by reflexivity.
    apply IH; assumption.
Qed.


Lemma scanline_bytes_lookup (w : nat) (buf : list byte) i x :
  (x < 2 * w)%nat →
  scanline_bytes w buf i !! x = buf !! (2 * w * i + x)%nat.
Proof.
  intros Hx. unfold scanline_bytes.
  rewrite lookup_take_lt by lia. apply lookup_drop.
Qed.

Lemma spec_rows_lookup (w h : nat) (buf : list byte) i :
  (i < h)%nat →
  spec_rows w h buf !! i = Some (spec_convert (scanline_bytes w buf i)).
Proof.
  intros Hi. unfold spec_rows.
  rewrite list_lookup_fmap, lookup_seq_lt by lia. reflexivity.
Qed.

(** ** The conversion claims *)

(** C3: for an image of a size the encoder accepts (1 to 65500 pixels
    each way), of even width, whose buffer holds two bytes per pixel,
    [YUYV2JPEG] hands the compressor scanlines in which the pixel
    pair stored as Y0,U,Y1,V becomes the six bytes r,g,b,r,g,b given by
    r = (y + 359*v) >> 8, g = (y - 88*u - 183*v) >> 8,
    b = (y + 454*u) >> 8 clamped to [0, 255], with y = Y << 8 of the
    pixel's own luma byte and the shared u = U - 128, v = V - 128. *)
Theorem yuyv_pair_conversion (w h : Z) (buf : list byte) :
  0 < w <= JPEG_MAX_DIMENSION → 0 < h <= JPEG_MAX_DIMENSION →
  Z.even w = true →
  2 * w * h <= Z.of_nat (length buf) →
  ∃ j, compress_frame w h buf = Some j ∧
    ∀ (i k : nat) (Y0 U Y1 V : byte),
      Z.of_nat i < h → 2 * Z.of_nat k + 1 < w →
      buf !! (2 * Z.to_nat w * i + 4 * k)%nat = Some Y0 →
      buf !! (2 * Z.to_nat w * i + 4 * k + 1)%nat = Some U →
      buf !! (2 * Z.to_nat w * i + 4 * k + 2)%nat = Some Y1 →
      buf !! (2 * Z.to_nat w * i + 4 * k + 3)%nat = Some V →
      ∃ row, jp_rows j !! i = Some row ∧
        take 6 (drop (6 * k) row)
        = spec_rgb (byte_val Y0) (byte_val U) (byte_val V)
          ++ spec_rgb (byte_val Y1) (byte_val U) (byte_val V).
Proof.
  intros Hw Hh Hev Hlen. eexists. split.
  { apply compress_frame_even; assumption. }
  intros i k Y0 U Y1 V Hi Hk H0 H1 H2 H3. cbn [jp_rows].
  eexists. split; [apply spec_rows_lookup; lia|].
  apply spec_convert_group; rewrite scanline_bytes_lookup by lia.
  - exact H0.
  - rewrite Nat.add_assoc. exact H1.
  - rewrite Nat.add_assoc. exact H2.
  - rewrite Nat.add_assoc. exact H3.
Qed.

Lemma fixture_frame :
  compress_frame 2 2 fixture
  = Some (JpegInfo 2 2 3 DEFAULT_JPEG_QUALITY 2
            [[16; 16; 16; 16; 16; 16]; [16; 16; 16; 16; 16; 16]]).
Proof. vm_compute. reflexivity. Qed.

(** C4, as the code has it: the fixture converts to two scanlines of
    two pixels, every pixel RGB (16, 16, 16). *)
Theorem fixture_converts_to_16 :
  compress_frame 2 2 fixture
  = Some (JpegInfo 2 2 3 DEFAULT_JPEG_QUALITY 2
            [[16; 16; 16; 16; 16; 16]; [16; 16; 16; 16; 16; 16]]).
Proof. apply fixture_frame. Qed.

(** C4, as the specification has it, fails: the output is not within
    the rounding of the shift (one unit) of RGB (0, 0, 0). *)
Lemma fixture_not_black :
  ¬ ∃ j, compress_frame 2 2 fixture = Some j ∧
         Forall (Forall (within 1 0)) (jp_rows j).
Proof.
  intros (j & Hj & Hall). rewrite fixture_frame in Hj.
  injection Hj as <-. cbn [jp_rows] in Hall.
  apply Forall_cons_1 in Hall as [Hrow _].
  apply Forall_cons_1 in Hrow as [Hc _].
  unfold within in Hc. lia.
Qed.

(** ** Running the program *)

Lemma bind_run {A B} (m : M A) (f : A → M B) w :
  (m ≫= f) w = match m w with Some (a, w') => f a w' | None => None end.
Proof. reflexivity. Qed.

(** Unfolds the program down to the world it computes. *)
Ltac exec :=
  cbv [after_options initVideoDevice checkCapabilities setFormat allocBuffer
       releaseBuffer YUYV2JPEG saveImage captureImage printUsage
       xioctl sys_open close mmap munmap select calloc fopen_wb fclose
       jpeg_write printf fprintf_stderr perror emit modify get_errno get_mem
       fault mbind mret M_bind M_ret ioctl_effect
       with_device with_mem with_errno with_file log
       set_width set_height set_fd set_caps set_fmt set_buffer set_buffer_len
       set_verbose width height fd caps fmt buffer buffer_len verbose
       w_trace w_fs w_streaming w_queued w_mem w_errno
       VI videoDevice outputFile negb andb id
       e_open e_querycap e_caps e_s_fmt e_g_fmt e_fmt e_reqbufs e_querybuf
       e_length e_offset e_mmap e_mem e_discard e_live e_fopen e_calloc
       c_qbuf c_streamon c_select c_dqbuf c_streamoff
       rep_ret rep_errno rep_frame capabilities driver card
       pix_width pix_height
       verbose_events unsupported_message has_cap requested_format
       width_differs height_differs width_warning height_warning negotiated
       format_events alloc_events wait_events cycle_events session
       fmap option_fmap option_map].

(** Splits a conjunction of boolean tests into equations on the tests
    the program makes. *)
Ltac tests :=
  unfold setup_ok, query_ok, cycle_ok, reaches_wait, frame_ready, wait_error,
    wait_timeout, succeeds, has_cap in *;
  cbn [e_open e_querycap e_caps e_s_fmt e_g_fmt e_fmt e_reqbufs e_querybuf
       e_length e_offset e_mmap e_mem e_discard e_live e_fopen e_calloc
       c_qbuf c_streamon c_select c_dqbuf c_streamoff
       rep_ret rep_errno rep_frame capabilities driver card] in *;
  repeat match goal with
  | H : (_ && _) = true |- _ => apply andb_true_iff in H as [? ?]
  | H : negb _ = true |- _ => apply negb_true_iff in H
  | H : negb _ = false |- _ => apply negb_false_iff in H
  end.

Ltac run :=
  intros; tests; exec;
  repeat match goal with H : _ = _ |- _ => rewrite H end.

Lemma initVideoDevice_ok e vi dev w :
  query_ok e = true →
  has_cap (e_caps e) V4L2_CAP_VIDEO_CAPTURE = true →
  has_cap (e_caps e) V4L2_CAP_STREAMING = true →
  initVideoDevice e vi (Some dev) w
  = Some ((true, set_caps (set_fd vi (e_open e)) (e_caps e)),
          log (verbose_events vi (e_caps e)
               ++ [EvIoctl (e_open e) VIDIOC_QUERYCAP (rep_ret (e_querycap e));
                   EvOpen dev (e_open e)]) w).
Proof.
  destruct e as [o [qr qe qf] [] ? ? ? ? ? ? ? ? ? ? ? ? ?], vi as [? ? ? ? ? ? ? v].
  run. destruct v; reflexivity.
Qed.

Lemma initVideoDevice_unsupported e vi dev w :
  query_ok e = true →
  has_cap (e_caps e) V4L2_CAP_VIDEO_CAPTURE
    && has_cap (e_caps e) V4L2_CAP_STREAMING = false →
  initVideoDevice e vi (Some dev) w
  = Some ((false, set_fd (set_caps (set_fd vi (e_open e)) (e_caps e)) (-1)),
          with_device false false
            (log (EvClose (e_open e)
                  :: EvStderr (unsupported_message (e_caps e)) []
                  :: verbose_events vi (e_caps e)
                  ++ [EvIoctl (e_open e) VIDIOC_QUERYCAP (rep_ret (e_querycap e));
                      EvOpen dev (e_open e)]) w)).
Proof.
  destruct e as [o [qr qe qf] [] ? ? ? ? ? ? ? ? ? ? ? ? ?], vi as [? ? ? ? ? ? ? v].
  intros Hq Hc. apply andb_false_iff in Hc.
  destruct (has_cap _ V4L2_CAP_VIDEO_CAPTURE) eqn:Hc1;
    [destruct Hc as [Hc|Hc]; [discriminate|] |]; run;
    destruct v; reflexivity.
Qed.

Lemma setFormat_ok e vi w :
  succeeds (e_s_fmt e) = true → succeeds (e_g_fmt e) = true →
  setFormat e vi w
  = Some ((true, negotiated (e_fmt e) vi), log (format_events e vi) w).
Proof.
  destruct e as [? ? ? [] [] [] ? ? ? ? ? ? ? ? ? ?], vi.
  run.
  repeat match goal with |- context [?a =? ?b] => destruct (a =? b) end;
    reflexivity.
Qed.

Lemma allocBuffer_ok e vi w :
  succeeds (e_reqbufs e) = true → succeeds (e_querybuf e) = true →
  (e_mmap e =? MAP_FAILED) = false →
  allocBuffer e vi w
  = Some ((true, set_buffer_len (set_buffer vi (e_mmap e)) (e_length e)),
          with_mem (Some (e_mem e)) (log (alloc_events e vi) w)).
Proof.
  destruct e as [? ? ? ? ? ? [] [] ? ? ? ? ? ? ? ?], vi.
  run. reflexivity.
Qed.

Lemma captureImage_ok c vi w :
  cycle_ok c = true →
  captureImage c vi w
  = Some (true, with_device false false
                  (with_mem ((λ _, rep_frame (c_dqbuf c)) <$> w_mem w)
                     (log (cycle_events c vi) w))).
Proof.
  destruct c as [[] [] s [] []], vi. intros.
  assert ((s <? 0) = false ∧ (s =? 0) = false) as [Hs1 Hs2].
  { unfold cycle_ok, frame_ready in *. cbn [c_select] in *. tests. lia. }
  run. reflexivity.
Qed.

Lemma captureImage_timeout c vi w :
  reaches_wait c = true → wait_timeout c = true →
  captureImage c vi w
  = Some (false, with_device true true
                   (log (EvStderr "Timed out waiting for frame\n" []
                         :: wait_events c vi) w)).
Proof.
  destruct c as [[] [] s [] []], vi. intros.
  assert ((s <? 0) = false) as Hs1.
  { unfold wait_timeout in *. cbn [c_select] in *. lia. }
  run. reflexivity.
Qed.

Lemma captureImage_wait_error c vi w :
  reaches_wait c = true → wait_error c = true →
  captureImage c vi w
  = Some (false, with_device true true
                   (log (EvPerror "select" :: wait_events c vi) w)).
Proof.
  destruct c as [[] [] s [] []], vi. run. reflexivity.
Qed.

(** [saveImage] once the file is open: whatever [YUYV2JPEG] returns,
    the file is closed, the message printed and [true] returned. *)
Lemma saveImage_opened e fname vi w r w1 :
  e_fopen e = true →
  YUYV2JPEG e fname vi
    (with_file fname (FileBytes []) (log [EvFopen fname true] w)) = Some (r, w1) →
  saveImage e fname vi w
  = Some (true, log [EvStdout "Saved image to %s\n" [ArgStr fname];
                     EvFclose fname] w1).
Proof.
  intros Hf Hy. destruct w. unfold saveImage, fopen_wb. rewrite Hf.
  cbv [mbind mret M_bind M_ret emit modify with_file log negb fclose printf
       app w_trace w_fs w_streaming w_queued w_mem w_errno] in Hy |- *.
  rewrite Hy. destruct w1. reflexivity.
Qed.


Lemma YUYV2JPEG_ok e fname vi w buf j :
  e_calloc e = true → w_mem w = Some buf →
  compress_frame (width vi) (height vi) buf = Some j →
  YUYV2JPEG e fname vi w
  = Some (true, with_file fname (FileJpeg j)
                  (log [EvJpegWrite fname;
                        EvCalloc (int_mul (width vi) 3) 1 true] w)).
Proof.
  destruct e, vi, w. cbn [e_calloc w_mem width height]. intros -> -> Hj.
  exec. rewrite Hj. reflexivity.
Qed.


Lemma saveImage_ok e fname vi w buf j :
  e_fopen e = true → e_calloc e = true → w_mem w = Some buf →
  compress_frame (width vi) (height vi) buf = Some j →
  saveImage e fname vi w
  = Some (true, with_file fname (FileJpeg j)
                  (log [EvStdout "Saved image to %s\n" [ArgStr fname];
                        EvFclose fname;
                        EvJpegWrite fname;
                        EvCalloc (int_mul (width vi) 3) 1 true;
                        EvFopen fname true] w)).
Proof.
  intros Hf Hc Hm Hj. erewrite saveImage_opened;
    [| exact Hf | eapply YUYV2JPEG_ok; [exact Hc | | exact Hj]].
  - destruct w. unfold with_file, log. cbn. rewrite insert_insert_eq. reflexivity.
  - destruct w. exact Hm.
Qed.


(** ** The option loop *)

Lemma option_case_frame atoi i optarg c w :
  ∃ r evs, option_case atoi i optarg c w = Some (r, log evs w)
           ∧ Forall (λ ev, output_event ev = true) evs.
Proof.
  unfold option_case. destruct w.
  repeat case_decide;
    try (eexists _, []; split; [reflexivity | constructor]).
  - destruct (atoi optarg =? 0) eqn:E.
    + eexists _, [_]. split; [exec; rewrite E; reflexivity|].
      repeat constructor.
    + eexists _, []. split; [exec; rewrite E; reflexivity|].
      constructor.
  - destruct (atoi optarg =? 0) eqn:E.
    + eexists _, [_]. split; [exec; rewrite E; reflexivity|].
      repeat constructor.
    + eexists _, []. split; [exec; rewrite E; reflexivity|].
      constructor.
  - eexists _, [_; _; _; _; _; _; _]. split; [reflexivity|].
    repeat constructor.
Qed.

Lemma option_loop_frame atoi opts : ∀ c w,
  ∃ r evs, option_loop atoi opts c w = Some (r, log evs w)
           ∧ Forall (λ ev, output_event ev = true) evs.
Proof.
  induction opts as [|[i optarg] opts IH]; intros c w.
  - exists (Some c), []. split; [destruct w; reflexivity | constructor].
  - cbn [option_loop]. rewrite bind_run.
    destruct (option_case_frame atoi i optarg c w) as (r & evs & -> & Hevs).
    destruct r as [c'|].
    + destruct (IH c' (log evs w)) as (r' & evs' & -> & Hevs').
      exists r', (evs' ++ evs). split.
      * destruct w. unfold log. cbn. rewrite app_assoc. reflexivity.
      * apply Forall_app; split; assumption.
    + exists None, evs. split; [reflexivity | assumption].
Qed.

Lemma main_run atoi opts e w :
  main atoi opts e w
  = match option_loop atoi opts initial_config w with
    | Some (Some c, w0) => after_options e c w0
    | Some (None, w0) => Some (1, w0)
    | None => None
    end.
Proof.
  unfold main. rewrite bind_run.
  destruct (option_loop atoi opts initial_config w) as [[[c|] w0]|]; reflexivity.
Qed.

(** ** The runs of [main] after the option loop *)

Lemma setup_ok_parts e :
  setup_ok e = true →
  query_ok e = true
  ∧ has_cap (e_caps e) V4L2_CAP_VIDEO_CAPTURE = true
  ∧ has_cap (e_caps e) V4L2_CAP_STREAMING = true
  ∧ succeeds (e_s_fmt e) = true ∧ succeeds (e_g_fmt e) = true
  ∧ succeeds (e_reqbufs e) = true ∧ succeeds (e_querybuf e) = true
  ∧ (e_mmap e =? MAP_FAILED) = false.
Proof.
  unfold setup_ok. rewrite !andb_true_iff, negb_true_iff. tauto.
Qed.

Ltac step lem :=
  rewrite !bind_run; rewrite lem by assumption; cbv beta iota delta [negb].

Ltac setup_steps :=
  unfold after_options;
  step initVideoDevice_ok; step setFormat_ok; step allocBuffer_ok.

Ltac same_world :=
  unfold torn_down, teardown_events, setup_events, session;
  exec; do 2 f_equal; f_equal; cbn [app]; rewrite <- ?app_assoc; cbn [app];
  reflexivity.

Lemma after_options_unsupported e c w :
  query_ok e = true →
  has_cap (e_caps e) V4L2_CAP_VIDEO_CAPTURE
    && has_cap (e_caps e) V4L2_CAP_STREAMING = false →
  after_options e c w
  = Some (1, with_device false false
               (log (EvClose (e_open e)
                     :: EvStderr (unsupported_message (e_caps e)) []
                     :: verbose_events (VI c) (e_caps e)
                     ++ [EvIoctl (e_open e) VIDIOC_QUERYCAP (rep_ret (e_querycap e));
                         EvOpen (videoDevice c) (e_open e)]) w)).
Proof.
  intros Hq Hc. unfold after_options.
  rewrite bind_run, initVideoDevice_unsupported by assumption. reflexivity.
Qed.

Lemma after_options_discard_timeout e c w :
  setup_ok e = true →
  reaches_wait (e_discard e) = true → wait_timeout (e_discard e) = true →
  after_options e c w
  = Some (1, torn_down e c
               (EvStderr "Error capturing initial frame, exiting\n" []
                :: EvStderr "Timed out waiting for frame\n" []
                :: wait_events (e_discard e) (session e c)) w).
Proof.
  intros Hs Hr Ht.
  apply setup_ok_parts in Hs as (? & ? & ? & ? & ? & ? & ? & ?).
  setup_steps. step captureImage_timeout.
  same_world.
Qed.

Lemma after_options_live_timeout e c w :
  setup_ok e = true → cycle_ok (e_discard e) = true →
  reaches_wait (e_live e) = true → wait_timeout (e_live e) = true →
  after_options e c w
  = Some (0, torn_down e c
               (EvStderr "Timed out waiting for frame\n" []
                :: wait_events (e_live e) (session e c)
                ++ cycle_events (e_discard e) (session e c)) w).
Proof.
  intros Hs Hd Hr Ht.
  apply setup_ok_parts in Hs as (? & ? & ? & ? & ? & ? & ? & ?).
  setup_steps. step captureImage_ok. step captureImage_timeout.
  same_world.
Qed.


Lemma after_options_saved e c w j :
  setup_ok e = true → cycle_ok (e_discard e) = true →
  cycle_ok (e_live e) = true → e_fopen e = true → e_calloc e = true →
  compress_frame (width (session e c)) (height (session e c))
                 (rep_frame (c_dqbuf (e_live e))) = Some j →
  after_options e c w
  = Some (0, torn_down e c
               (save_events e c true
                ++ cycle_events (e_live e) (session e c)
                ++ cycle_events (e_discard e) (session e c))
               (with_file (outputFile c) (FileJpeg j) w)).
Proof.
  intros Hs Hd Hl Hf Hc Hj.
  apply setup_ok_parts in Hs as (? & ? & ? & ? & ? & ? & ? & ?).
  setup_steps. step captureImage_ok. step captureImage_ok.
  rewrite !bind_run.
  erewrite saveImage_ok; [| assumption | assumption | reflexivity | exact Hj].
  unfold save_events. same_world.
Qed.

(** ** Events of a run *)

Lemma output_not_buffer evs :
  Forall (λ ev, output_event ev = true) evs →
  Forall (λ ev, buffer_or_capture ev = false) evs.
Proof.
  intros Hall. eapply Forall_impl; [exact Hall|].
  intros [] H; try discriminate H; reflexivity.
Qed.

Lemma output_not_file evs :
  Forall (λ ev, output_event ev = true) evs →
  Forall (λ ev, file_event ev = false) evs.
Proof.
  intros Hall. eapply Forall_impl; [exact Hall|].
  intros [] H; try discriminate H; reflexivity.
Qed.

Lemma output_not_perror evs :
  Forall (λ ev, output_event ev = true) evs →
  Forall (λ ev, is_perror ev = false) evs.
Proof.
  intros Hall. eapply Forall_impl; [exact Hall|].
  intros [] H; try discriminate H; reflexivity.
Qed.

Lemma no_perror_in evs s :
  Forall (λ ev, is_perror ev = false) evs → EvPerror s ∉ evs.
Proof.
  intros Hall Hin. rewrite Forall_forall in Hall.
  specialize (Hall _ Hin). discriminate Hall.
Qed.

(** The world the option loop leaves when it starts from [init_world]. *)
Lemma option_loop_init atoi opts fs r w0 :
  option_loop atoi opts initial_config (init_world fs) = Some (r, w0) →
  ∃ evs, w0 = log evs (init_world fs)
         ∧ Forall (λ ev, output_event ev = true) evs.
Proof.
  intros H.
  destruct (option_loop_frame atoi opts initial_config (init_world fs))
    as (r' & evs & Heq & Hevs).
  rewrite Heq in H. injection H as _ <-. exists evs. split; [reflexivity | assumption].
Qed.

(** Decides a property of every event of an explicit trace. *)
Ltac all_events :=
  unfold torn_down, teardown_events, setup_events, save_events, alloc_events,
    format_events, verbose_events, cycle_events, wait_events;
  repeat first
    [ assumption
    | apply Forall_nil_2
    | apply Forall_cons; split; [reflexivity|]
    | apply Forall_app; split
    | match goal with |- Forall _ (if ?b then _ else _) => destruct b end ].

(** C6: when the device opens and answers the capability query but
    lacks the capture flag or the streaming flag, [main] returns 1
    without any buffer request, mapping or capture-cycle call, after
    the unsupported-device message and no perror report. *)
Theorem unsupported_device_aborts atoi opts e fs c w0 :
  option_loop atoi opts initial_config (init_world fs) = Some (Some c, w0) →
  query_ok e = true →
  has_cap (e_caps e) V4L2_CAP_VIDEO_CAPTURE
    && has_cap (e_caps e) V4L2_CAP_STREAMING = false →
  ∃ w', main atoi opts e (init_world fs) = Some (1, w')
    ∧ Forall (λ ev, buffer_or_capture ev = false) (history w')
    ∧ w_mem w' = None
    ∧ EvStderr (if has_cap (e_caps e) V4L2_CAP_VIDEO_CAPTURE
                then "Device does not support streaming i/o\n"
                else "Device does not support video capture\n") []
        ∈ history w'
    ∧ EvPerror "ioctl(VIDIOC_QUERYCAP)" ∉ history w'.
Proof.
  intros Hopt Hq Hc.
  destruct (option_loop_init _ _ _ _ _ Hopt) as (evs & -> & Hevs).
  rewrite main_run, Hopt, after_options_unsupported by assumption.
  eexists. split; [reflexivity|].
  pose proof (output_not_buffer _ Hevs). pose proof (output_not_perror _ Hevs).
  unfold history.
  cbn [with_device log init_world w_trace w_mem].
  rewrite app_nil_r. repeat split.
  - apply Forall_reverse. all_events.
  - apply elem_of_reverse. set_solver.
  - rewrite elem_of_reverse. apply no_perror_in. all_events.
Qed.

(** C7: a capture cycle whose wait expires returns false after the
    timeout message, not the perror report of a failed wait; and a run
    of [main] in which the wait of the discard cycle or of the live
    cycle expires opens no file and leaves the file system as it was. *)
Theorem timeout_writes_no_file atoi opts e fs c w0 :
  option_loop atoi opts initial_config (init_world fs) = Some (Some c, w0) →
  setup_ok e = true →
  (reaches_wait (e_discard e) && wait_timeout (e_discard e))
  || (cycle_ok (e_discard e) && reaches_wait (e_live e)
      && wait_timeout (e_live e)) = true →
  (∀ cy vi w, reaches_wait cy = true →
     (wait_timeout cy = true →
      ∃ w', captureImage cy vi w = Some (false, w')
            ∧ head (w_trace w') = Some (EvStderr "Timed out waiting for frame\n" []))
     ∧ (wait_error cy = true →
        ∃ w', captureImage cy vi w = Some (false, w')
              ∧ head (w_trace w') = Some (EvPerror "select")))
  ∧ ∃ code w', main atoi opts e (init_world fs) = Some (code, w')
      ∧ w_fs w' = fs
      ∧ Forall (λ ev, file_event ev = false) (history w')
      ∧ EvStderr "Timed out waiting for frame\n" [] ∈ history w'
      ∧ EvPerror "select" ∉ history w'.
Proof.
  intros Hopt Hs Hcase. split.
  { intros cy vi w Hr. split; intros Hw.
    - rewrite captureImage_timeout by assumption. eexists. split; reflexivity.
    - rewrite captureImage_wait_error by assumption. eexists. split; reflexivity. }
  destruct (option_loop_init _ _ _ _ _ Hopt) as (evs & -> & Hevs).
  pose proof (output_not_file _ Hevs). pose proof (output_not_perror _ Hevs).
  rewrite main_run, Hopt.
  apply orb_true_iff in Hcase as [Hd | Hl].
  - apply andb_true_iff in Hd as [Hr Ht].
    rewrite after_options_discard_timeout by assumption.
    eexists _, _. split; [reflexivity|].
    unfold history. cbn [torn_down with_device with_mem log init_world w_trace w_fs].
    rewrite app_nil_r. repeat split.
    + apply Forall_reverse. all_events.
    + apply elem_of_reverse. set_solver.
    + rewrite elem_of_reverse. apply no_perror_in. all_events.
  - apply andb_true_iff in Hl as [Hl Ht]. apply andb_true_iff in Hl as [Hd Hr].
    rewrite after_options_live_timeout by assumption.
    eexists _, _. split; [reflexivity|].
    unfold history. cbn [torn_down with_device with_mem log init_world w_trace w_fs].
    rewrite app_nil_r. repeat split.
    + apply Forall_reverse. all_events.
    + apply elem_of_reverse. set_solver.
    + rewrite elem_of_reverse. apply no_perror_in. all_events.
Qed.


(** ** Format negotiation *)

Lemma negotiated_u32 f vi :
  is_u32 (pix_width f) → is_u32 (pix_height f) →
  wrap_u32 (width (negotiated f vi)) = pix_width f
  ∧ wrap_u32 (height (negotiated f vi)) = pix_height f.
Proof.
  intros Hw Hh. unfold negotiated, width_differs, height_differs.
  cbn [width height]. split.
  - destruct (Z.eqb_spec (pix_width f) (wrap_u32 (width vi))) as [->|];
      cbn [negb]; [reflexivity | apply wrap_u32_int; assumption].
  - destruct (Z.eqb_spec (pix_height f) (wrap_u32 (height vi))) as [->|];
      cbn [negb]; [reflexivity | apply wrap_u32_int; assumption].
Qed.

Lemma negotiated_size f vi :
  is_int (width vi) → is_int (height vi) →
  (0 <= pix_width f <= INT_MAX → width (negotiated f vi) = pix_width f)
  ∧ (0 <= pix_height f <= INT_MAX → height (negotiated f vi) = pix_height f).
Proof.
  intros Hw Hh. unfold negotiated, width_differs, height_differs.
  cbn [width height]. split; intros Hp.
  - destruct (Z.eqb_spec (pix_width f) (wrap_u32 (width vi))) as [E|];
      cbn [negb].
    + rewrite <- (wrap_int_u32 (width vi)), <- E by assumption.
      apply wrap_int_id. unfold is_int, INT_MIN. lia.
    + apply wrap_int_id. unfold is_int, INT_MIN. lia.
  - destruct (Z.eqb_spec (pix_height f) (wrap_u32 (height vi))) as [E|];
      cbn [negb].
    + rewrite <- (wrap_int_u32 (height vi)), <- E by assumption.
      apply wrap_int_id. unfold is_int, INT_MIN. lia.
    + apply wrap_int_id. unfold is_int, INT_MIN. lia.
Qed.

(** C5: a [setFormat] whose two ioctls succeed returns true with the
    session's width and height holding the values read back from the
    driver, after a warning for each one that differs from the request;
    and when the driver's size is one the encoder accepts (1 to 65500
    pixels each way), the image a complete run writes has the driver's
    dimensions and the scanlines converted with them. *)
Theorem setFormat_adopts_driver_size atoi opts e fs c w0 :
  succeeds (e_s_fmt e) = true → succeeds (e_g_fmt e) = true →
  is_u32 (pix_width (e_fmt e)) → is_u32 (pix_height (e_fmt e)) →
  (∀ vi w, is_int (width vi) → is_int (height vi) →
     ∃ vi' w', setFormat e vi w = Some ((true, vi'), w')
       ∧ wrap_u32 (width vi') = pix_width (e_fmt e)
       ∧ wrap_u32 (height vi') = pix_height (e_fmt e)
       ∧ (pix_width (e_fmt e) <= INT_MAX → width vi' = pix_width (e_fmt e))
       ∧ (pix_height (e_fmt e) <= INT_MAX → height vi' = pix_height (e_fmt e))
       ∧ (pix_width (e_fmt e) ≠ wrap_u32 (width vi) →
          EvStderr "Warning: Selected width (%d) adjusted by driver to %d\n"
            [ArgInt (width vi); ArgInt (wrap_int (pix_width (e_fmt e)))]
          ∈ w_trace w')
       ∧ (pix_height (e_fmt e) ≠ wrap_u32 (height vi) →
          EvStderr "Warning: Selected height (%d) adjusted by driver to %d\n"
            [ArgInt (height vi); ArgInt (wrap_int (pix_height (e_fmt e)))]
          ∈ w_trace w'))
  ∧ (option_loop atoi opts initial_config (init_world fs) = Some (Some c, w0) →
     is_int (width (VI c)) → is_int (height (VI c)) →
     setup_ok e = true → cycle_ok (e_discard e) = true →
     cycle_ok (e_live e) = true → e_fopen e = true → e_calloc e = true →
     0 < pix_width (e_fmt e) <= JPEG_MAX_DIMENSION →
     0 < pix_height (e_fmt e) <= JPEG_MAX_DIMENSION →
     Z.even (pix_width (e_fmt e)) = true →
     2 * pix_width (e_fmt e) * pix_height (e_fmt e)
       <= Z.of_nat (length (rep_frame (c_dqbuf (e_live e)))) →
     ∃ w', main atoi opts e (init_world fs) = Some (0, w')
       ∧ w_fs w' !! outputFile c
         = Some (FileJpeg
                   (JpegInfo (pix_width (e_fmt e)) (pix_height (e_fmt e)) 3
                      DEFAULT_JPEG_QUALITY (pix_height (e_fmt e))
                      (spec_rows (Z.to_nat (pix_width (e_fmt e)))
                                 (Z.to_nat (pix_height (e_fmt e)))
                                 (rep_frame (c_dqbuf (e_live e))))))).
Proof.
  intros Hsf Hgf Hpw Hph. split.
  - intros vi w Hw Hh. rewrite setFormat_ok by assumption.
    pose proof (negotiated_u32 (e_fmt e) vi Hpw Hph) as [Hw32 Hh32].
    pose proof (negotiated_size (e_fmt e) vi Hw Hh) as [Hwi Hhi].
    unfold is_u32 in Hpw, Hph.
    eexists _, _. split; [reflexivity|].
    split; [exact Hw32|]. split; [exact Hh32|].
    split; [intros; apply Hwi; lia|]. split; [intros; apply Hhi; lia|].
    unfold log, format_events, width_differs, height_differs, width_warning,
      height_warning. cbn [w_trace]. split; intros Hne.
    + apply Z.eqb_neq in Hne. rewrite Hne. cbn [negb].
      clear -w. set_solver.
    + apply Z.eqb_neq in Hne. rewrite Hne. cbn [negb].
      clear -w. set_solver.
  - intros Hopt Hw Hh Hs Hd Hl Hf Hc Hwm Hhm Hev Hlen.
    unfold is_u32 in Hpw, Hph.
    assert (Hsw : width (session e c) = pix_width (e_fmt e)).
    { unfold session. cbn [width set_buffer_len set_buffer].
      apply negotiated_size;
        [exact Hw | exact Hh | unfold JPEG_MAX_DIMENSION, INT_MAX in *; lia]. }
    assert (Hsh : height (session e c) = pix_height (e_fmt e)).
    { unfold session. cbn [height set_buffer_len set_buffer].
      apply negotiated_size;
        [exact Hw | exact Hh | unfold JPEG_MAX_DIMENSION, INT_MAX in *; lia]. }
    rewrite main_run, Hopt.
    erewrite after_options_saved; try assumption.
    2: { rewrite Hsw, Hsh. apply compress_frame_even; assumption. }
    eexists. split; [reflexivity|].
    cbn [torn_down with_device with_mem with_file log w_fs].
    apply lookup_insert_eq.
Qed.

(** ** Computations only add to the trace *)

Lemma bind_inv {A B} (m : M A) (f : A → M B) w r w' :
  (m ≫= f) w = Some (r, w') →
  ∃ a w1, m w = Some (a, w1) ∧ f a w1 = Some (r, w').
Proof.
  rewrite bind_run. destruct (m w) as [[a w1]|]; [|discriminate].
  intros H. exists a, w1. split; [reflexivity | exact H].
Qed.

Lemma extends_ret {A} (a : A) : extends (mret a).
Proof. intros w r w' [= _ <-]. reflexivity. Qed.

Lemma extends_fault {A} : extends (@fault A).
Proof. intros w r w' [=]. Qed.

Lemma extends_emit ev : extends (emit ev).
Proof. intros w r w' [= _ <-]. cbn. apply suffix_cons_r. reflexivity. Qed.

Lemma extends_modify f :
  (∀ w, w_trace (f w) = w_trace w) → extends (modify f).
Proof. intros Hf w r w' [= _ <-]. rewrite Hf. reflexivity. Qed.

Lemma extends_get_errno : extends get_errno.
Proof. intros w r w' [= _ <-]. reflexivity. Qed.

Lemma extends_get_mem : extends get_mem.
Proof.
  intros w r w'. unfold get_mem. destruct (w_mem w); [|discriminate].
  intros [= _ <-]. reflexivity.
Qed.

Lemma extends_bind {A B} (m : M A) (f : A → M B) :
  extends m → (∀ a, extends (f a)) → extends (m ≫= f).
Proof.
  intros Hm Hf w r w' H. apply bind_inv in H as (a & w1 & H1 & H2).
  etransitivity; [eapply Hm, H1 | eapply Hf, H2].
Qed.

Lemma extends_elem {A} (m : M A) w r w' ev :
  m w = Some (r, w') → ev ∈ w_trace w → extends m → ev ∈ w_trace w'.
Proof.
  intros H Hin Hm. destruct (Hm _ _ _ H) as [k ->]. set_solver.
Qed.

(** Proves that a straight-line program only adds to the trace. *)
Ltac ext :=
  repeat first
    [ apply extends_ret | apply extends_fault | apply extends_emit
    | apply extends_get_errno | apply extends_get_mem
    | apply extends_modify;
      intros []; unfold ioctl_effect;
      repeat match goal with
             | |- context [if ?b then _ else _] => destruct b
             | |- context [match ?x with _ => _ end] => destruct x
             end; reflexivity
    | apply extends_bind; [| intros ?]
    | match goal with
      | |- extends (let _ := _ in _) => cbv zeta
      | |- extends (if ?b then _ else _) => destruct b
      | |- extends (match ?x with _ => _ end) => destruct x
      end ].

(** ** The capture cycle and the exit status at concrete runs *)

(** C2 at a wait that expires: the cycle returns false after QBUF,
    STREAMON, the wait and the message, without VIDIOC_STREAMOFF, and
    leaves the device streaming with its buffer queued. *)
Theorem timeout_leaves_streaming :
  ∃ w', captureImage timeout_cycle open_session (init_world ∅) = Some (false, w')
    ∧ history w' = [EvIoctl 3 (VIDIOC_QBUF 0) 0; EvIoctl 3 VIDIOC_STREAMON 0;
                    EvSelect 3 5 0;
                    EvStderr "Timed out waiting for frame\n" []]
    ∧ w_streaming w' = true ∧ w_queued w' = true ∧ idle w' = false.
Proof. eexists. split; [reflexivity|]. repeat split. Qed.

(** The same after a failed wait. *)
Example wait_error_leaves_streaming :
  ∃ w', captureImage wait_error_cycle open_session (init_world ∅) = Some (false, w')
    ∧ history w' = [EvIoctl 3 (VIDIOC_QBUF 0) 0; EvIoctl 3 VIDIOC_STREAMON 0;
                    EvSelect 3 5 (-1); EvPerror "select"]
    ∧ w_streaming w' = true ∧ idle w' = false.
Proof. eexists. split; [reflexivity|]. repeat split. Qed.

(** A cycle that succeeds does turn streaming off. *)
Lemma captureImage_ok_idle c vi w :
  cycle_ok c = true →
  ∃ w', captureImage c vi w = Some (true, w') ∧ idle w' = true.
Proof.
  intros H. rewrite captureImage_ok by assumption. eexists. split; reflexivity.
Qed.

(** C1 at a live cycle that times out after a complete setup and a
    good discard cycle: [main] returns 0 and no file exists. *)
Theorem live_timeout_exits_zero :
  ∃ w', main atoi_c [] live_timeout_env (init_world ∅) = Some (0, w')
    ∧ w_fs w' = ∅
    ∧ EvStderr "Timed out waiting for frame\n" [] ∈ history w'.
Proof.
  rewrite main_run. cbn [option_loop mret M_ret].
  rewrite after_options_live_timeout by reflexivity.
  eexists. split; [reflexivity|]. split; [reflexivity|].
  apply elem_of_reverse. cbn. set_solver.
Qed.

(** The sibling path: a discard cycle that times out makes [main]
    return 1. *)
Example discard_timeout_exits_one :
  fst <$> main atoi_c [] discard_timeout_env (init_world ∅) = Some 1.
Proof.
  rewrite main_run. cbn [option_loop mret M_ret].
  rewrite after_options_discard_timeout by reflexivity. reflexivity.
Qed.

(** ** The theorems at concrete inputs *)

Lemma yuyv_pair_conversion_witness :
  ∃ j, compress_frame 2 2 sample_frame = Some j ∧
    ∀ (i k : nat) (Y0 U Y1 V : byte),
      Z.of_nat i < 2 → 2 * Z.of_nat k + 1 < 2 →
      sample_frame !! (2 * Z.to_nat 2 * i + 4 * k)%nat = Some Y0 →
      sample_frame !! (2 * Z.to_nat 2 * i + 4 * k + 1)%nat = Some U →
      sample_frame !! (2 * Z.to_nat 2 * i + 4 * k + 2)%nat = Some Y1 →
      sample_frame !! (2 * Z.to_nat 2 * i + 4 * k + 3)%nat = Some V →
      ∃ row, jp_rows j !! i = Some row ∧
        take 6 (drop (6 * k) row)
        = spec_rgb (byte_val Y0) (byte_val U) (byte_val V)
          ++ spec_rgb (byte_val Y1) (byte_val U) (byte_val V).
Proof.
  apply (yuyv_pair_conversion 2 2 sample_frame);
    [unfold JPEG_MAX_DIMENSION; lia | unfold JPEG_MAX_DIMENSION; lia
    | reflexivity | cbn; lia].
Defined.


Lemma unsupported_device_aborts_witness :
  ∃ w', main atoi_c [("v"%char, "")] no_streaming_env (init_world ∅) = Some (1, w')
    ∧ Forall (λ ev, buffer_or_capture ev = false) (history w')
    ∧ w_mem w' = None
    ∧ EvStderr "Device does not support streaming i/o\n" [] ∈ history w'
    ∧ EvPerror "ioctl(VIDIOC_QUERYCAP)" ∉ history w'.
Proof.
  exact (unsupported_device_aborts atoi_c [("v"%char, "")] no_streaming_env ∅
           (Config (set_verbose (VI initial_config) true)
                   DEFAULT_VIDEODEV DEFAULT_OUTPUTFILE)
           (init_world ∅) eq_refl eq_refl eq_refl).
Defined.

Lemma timeout_writes_no_file_witness :
  ∃ code w', main atoi_c [] live_timeout_env (init_world ∅) = Some (code, w')
    ∧ w_fs w' = ∅
    ∧ Forall (λ ev, file_event ev = false) (history w')
    ∧ EvStderr "Timed out waiting for frame\n" [] ∈ history w'
    ∧ EvPerror "select" ∉ history w'.
Proof.
  exact (proj2 (timeout_writes_no_file atoi_c [] live_timeout_env ∅
                  initial_config (init_world ∅) eq_refl eq_refl eq_refl)).
Defined.


Lemma setFormat_adopts_driver_size_witness :
  ∃ w', main atoi_c [] good_env (init_world ∅) = Some (0, w')
    ∧ w_fs w' !! "vcap.jpg"
      = Some (FileJpeg (JpegInfo 2 2 3 DEFAULT_JPEG_QUALITY 2
                          (spec_rows 2 2 sample_frame))).
Proof.
  assert (H2 : is_u32 2) by (unfold is_u32; lia).
  assert (Hw : is_int 640) by (unfold is_int, INT_MIN, INT_MAX; lia).
  assert (Hh : is_int 480) by (unfold is_int, INT_MIN, INT_MAX; lia).
  assert (Hm : 0 < 2 <= JPEG_MAX_DIMENSION) by (unfold JPEG_MAX_DIMENSION; lia).
  assert (Hlen : 2 * 2 * 2 <= 8) by lia.
  exact (proj2 (setFormat_adopts_driver_size atoi_c [] good_env ∅
                  initial_config (init_world ∅) eq_refl eq_refl H2 H2)
           eq_refl Hw Hh eq_refl eq_refl eq_refl eq_refl eq_refl Hm Hm
           eq_refl Hlen).
Defined.

(** ** Runs of the whole program *)

Example atoi_c_values :
  (atoi_c "  -12ab", atoi_c "abc", atoi_c "+7", atoi_c "0", atoi_c "640")
  = (-12, 0, 7, 0, 640).
Proof. reflexivity. Qed.

Example negative_width_is_kept :
  (λ r : option config * world, (width ∘ VI <$> r.1, w_trace r.2))
    <$> option_case atoi_c "w" "-5" initial_config (init_world ∅)
  = Some (Some (-5), []).
Proof. vm_compute. reflexivity. Qed.

Example zero_width_falls_back :
  (λ r : option config * world, (width ∘ VI <$> r.1, w_trace r.2))
    <$> option_case atoi_c "w" "0x10" initial_config (init_world ∅)
  = Some (Some 640, [EvStderr "Invalid width, using default\n" []]).
Proof. vm_compute. reflexivity. Qed.

Example sample_frame_rows :
  jp_rows <$> compress_frame 2 2 sample_frame
  = Some [[239; 15; 14; 255; 78; 77]; [255; 208; 28; 178; 0; 0]].
Proof. reflexivity. Qed.

Example good_run :
  (λ r : Z * world, (r.1, history r.2, w_mem r.2, idle r.2))
    <$> main atoi_c [] good_env (init_world ∅)
  = Some (0,
          [EvOpen "/dev/video0" 3; EvIoctl 3 VIDIOC_QUERYCAP 0;
           EvIoctl 3 (VIDIOC_S_FMT (Format 1 640 480 V4L2_PIX_FMT_YUYV 0)) 0;
           EvIoctl 3 VIDIOC_G_FMT 0;
           EvStderr "Warning: Selected width (%d) adjusted by driver to %d\n"
                    [ArgInt 640; ArgInt 2];
           EvStderr "Warning: Selected height (%d) adjusted by driver to %d\n"
                    [ArgInt 480; ArgInt 2];
           EvIoctl 3 (VIDIOC_REQBUFS 1 1 1) 0;
           EvIoctl 3 (VIDIOC_QUERYBUF 0) 0; EvMmap 8 0 4096;
           EvIoctl 3 (VIDIOC_QBUF 0) 0; EvIoctl 3 VIDIOC_STREAMON 0;
           EvSelect 3 5 1; EvIoctl 3 VIDIOC_DQBUF 0;
           EvIoctl 3 VIDIOC_STREAMOFF 0; EvIoctl 3 (VIDIOC_QBUF 0) 0;
           EvIoctl 3 VIDIOC_STREAMON 0; EvSelect 3 5 1;
           EvIoctl 3 VIDIOC_DQBUF 0; EvIoctl 3 VIDIOC_STREAMOFF 0;
           EvFopen "vcap.jpg" true; EvCalloc 6 1 true;
           EvJpegWrite "vcap.jpg"; EvFclose "vcap.jpg";
           EvStdout "Saved image to %s\n" [ArgStr "vcap.jpg"];
           EvMunmap 4096 8; EvClose 3],
          None, true).
Proof. vm_compute. reflexivity. Qed.

Example query_failure_run :
  (λ r : Z * world, (r.1, history r.2))
    <$> main atoi_c [] query_fails_env (init_world ∅)
  = Some (1, [EvOpen "/dev/video0" 3; EvIoctl 3 VIDIOC_QUERYCAP (-1);
              EvPerror "ioctl(VIDIOC_QUERYCAP)"; EvClose 3]).
Proof. vm_compute. reflexivity. Qed.

Example no_streaming_run :
  (λ r : Z * world, (r.1, history r.2))
    <$> main atoi_c [] no_streaming_env (init_world ∅)
  = Some (1, [EvOpen "/dev/video0" 3; EvIoctl 3 VIDIOC_QUERYCAP 0;
              EvStderr "Device does not support streaming i/o\n" [];
              EvClose 3]).
Proof. vm_compute. reflexivity. Qed.

(** ** The conversion for any width *)

Lemma pixel_body_at (buf : list byte) k (second : bool) :
  (4 * k + 4 <= length buf)%nat →
  pixel_body buf (pixel_state k second)
  = Some (flat_pixels buf (2 * k + (if second then 1 else 0)) 1,
          if second then pixel_state (S k) false else pixel_state k true).
Proof.
  intros Hlen.
  destruct (lookup_lt_is_Some_2 buf (4 * k)) as [y0 H0]; [lia|].
  destruct (lookup_lt_is_Some_2 buf (4 * k + 1)) as [u H1]; [lia|].
  destruct (lookup_lt_is_Some_2 buf (4 * k + 2)) as [y1 H2]; [lia|].
  destruct (lookup_lt_is_Some_2 buf (4 * k + 3)) as [v H3]; [lia|].
  pose proof (spec_convert_group k buf y0 u y1 v H0 H1 H2 H3) as Hg.
  unfold flat_pixels, pixel_state. destruct second.
  - rewrite (pixel_body_second buf (4 * k) y1 u v) by assumption.
    f_equal. f_equal.
    + replace (3 * (2 * k + 1))%nat with (6 * k + 3)%nat by lia.
      rewrite <- drop_drop, take_drop_commute. change (3 + 3 * 1)%nat with 6%nat.
      rewrite Hg. reflexivity.
    + f_equal. lia.
  - rewrite (pixel_body_first buf (4 * k) y0 u v)
      by (rewrite ?Nat.add_0_r; assumption).
    f_equal. f_equal.
    replace (3 * (2 * k + 0))%nat with (6 * k)%nat by lia.
    replace (take (3 * 1) (drop (6 * k) (spec_convert buf)))
      with (take 3 (take 6 (drop (6 * k) (spec_convert buf))))
      by (rewrite take_take; reflexivity).
    rewrite Hg. reflexivity.
Qed.

Lemma flat_pixels_S (buf : list byte) p n :
  flat_pixels buf p 1 ++ flat_pixels buf (S p) n = flat_pixels buf p (S n).
Proof.
  unfold flat_pixels.
  replace (3 * S p)%nat with (3 * p + 3 * 1)%nat by lia.
  rewrite <- drop_drop, take_take_drop. f_equal. lia.
Qed.

(** [n] pixels from pixel [2 * k + second] on, as long as they lie in
    the first [G] groups, all inside the buffer. *)
Lemma row_loop_at (buf : list byte) size G n : ∀ k (second : bool) ptr,
  (4 * G <= length buf)%nat →
  (2 * k + (if second then 1 else 0) + n <= 2 * G)%nat →
  ptr + 3 * Z.of_nat n <= size →
  ∃ k' (second' : bool),
    (2 * k' + (if second' then 1 else 0)
     = 2 * k + (if second then 1 else 0) + n)%nat
    ∧ row_loop n size ptr buf (pixel_state k second)
      = Some (flat_pixels buf (2 * k + (if second then 1 else 0)) n,
              pixel_state k' second').
Proof.
  induction n as [|n IH]; intros k second ptr HG Hn Hsize.
  - exists k, second. split; [lia|]. cbn [row_loop]. unfold flat_pixels.
    rewrite take_0. reflexivity.
  - rewrite row_loop_S by lia. rewrite pixel_body_at by (destruct second; lia).
    cbn [mbind option_bind].
    destruct second.
    + destruct (IH (S k) false (ptr + 3) HG) as (k' & s' & Hp & ->);
        [cbn; lia | lia |].
      exists k', s'. split; [lia|]. cbn [mbind option_bind]. f_equal. f_equal.
      replace (2 * S k + 0)%nat with (S (2 * k + 1)) by lia.
      apply flat_pixels_S.
    + destruct (IH k true (ptr + 3) HG) as (k' & s' & Hp & ->);
        [cbn; lia | lia |].
      exists k', s'. split; [lia|]. cbn [mbind option_bind]. f_equal. f_equal.
      replace (2 * k + 1)%nat with (S (2 * k + 0)) by lia.
      apply flat_pixels_S.
Qed.

Lemma flat_rows_from_S p w n (buf : list byte) :
  flat_rows_from p w (S n) buf
  = flat_pixels buf p w :: flat_rows_from (p + w) w n buf.
Proof.
  unfold flat_rows_from. cbn [seq fmap list_fmap]. f_equal.
  - f_equal. lia.
  - rewrite <- fmap_S_seq, <- list_fmap_compose. apply list_fmap_ext.
    intros _ i _. unfold compose. f_equal. lia.
Qed.

Lemma scan_loop_at (buf : list byte) size G w :
  3 * Z.of_nat w <= size →
  ∀ lines fuel j k (second : bool),
  image_height j - next_scanline j = Z.of_nat lines →
  (lines <= fuel)%nat →
  (4 * G <= length buf)%nat →
  (2 * k + (if second then 1 else 0) + w * lines <= 2 * G)%nat →
  ∃ st, scan_loop fuel size (Z.of_nat w) buf j (pixel_state k second)
        = Some (finished j (flat_rows_from (2 * k + (if second then 1 else 0))
                              w lines buf), st).
Proof.
  intros Hsize.
  induction lines as [|lines IH]; intros fuel j k second Hn Hfuel HG Hp.
  - assert (Hlt : (next_scanline j <? image_height j) = false)
      by (apply Z.ltb_ge; lia).
    eexists. destruct fuel; cbn [scan_loop]; rewrite Hlt;
      (f_equal; f_equal);
      destruct j as [iw ih ic q ns rows]; unfold finished, flat_rows_from;
      cbn in *; rewrite app_nil_r; f_equal; lia.
  - assert (Hlt : (next_scanline j <? image_height j) = true)
      by (apply Z.ltb_lt; lia).
    destruct fuel as [|fuel]; [lia|]. cbn [scan_loop]. rewrite Hlt.
    rewrite Nat2Z.id.
    destruct (row_loop_at buf size G w k second 0 HG) as (k' & s' & Hk' & ->);
      [nia | lia |].
    cbn [mbind option_bind].
    destruct (IH fuel (jpeg_write_scanlines j
                         (flat_pixels buf (2 * k + (if second then 1 else 0)) w))
                 k' s') as (st & ->); [cbn; lia | lia | exact HG | nia |].
    exists st. f_equal. f_equal.
    rewrite flat_rows_from_S, Hk'. unfold finished, jpeg_write_scanlines.
    cbn [image_width image_height input_components jp_quality jp_rows].
    rewrite <- app_assoc. reflexivity.
Qed.

(** The group-by-group conversion of the first [G] groups of a buffer
    is the beginning of the conversion of the whole buffer. *)
Lemma spec_convert_take (G : nat) : ∀ buf : list byte,
  (4 * G <= length buf)%nat →
  spec_convert (take (4 * G) buf) = take (6 * G) (spec_convert buf).
Proof.
  induction G as [|G IH]; intros buf Hlen.
  - reflexivity.
  - replace (4 * S G)%nat with (S (S (S (S (4 * G))))) in * by lia.
    replace (6 * S G)%nat with (S (S (S (S (S (S (6 * G))))))) by lia.
    destruct buf as [|a [|b [|c [|d rest]]]]; cbn [length] in Hlen; try lia.
    cbn [take spec_convert spec_rgb app]. rewrite IH by lia. reflexivity.
Qed.

Lemma flat_pixels_take (buf : list byte) G p n :
  (4 * G <= length buf)%nat → (p + n <= 2 * G)%nat →
  flat_pixels (take (4 * G) buf) p n = flat_pixels buf p n.
Proof.
  intros Hlen Hp. unfold flat_pixels.
  rewrite spec_convert_take by assumption.
  rewrite !take_drop_commute, take_take. do 2 f_equal. lia.
Qed.

Lemma flat_rows_take (buf : list byte) G w h :
  (4 * G <= length buf)%nat → (w * h <= 2 * G)%nat →
  flat_rows w h (take (4 * G) buf) = flat_rows w h buf.
Proof.
  intros Hlen Hp. unfold flat_rows, flat_rows_from.
  apply list_fmap_ext. intros j i Hi.
  apply lookup_seq in Hi as [-> Hlt].
  apply flat_pixels_take; [assumption | nia].
Qed.

(** The image for any width the encoder accepts. *)
Lemma compress_frame_flat (w h : Z) (buf : list byte) (G : nat) :
  0 < w <= JPEG_MAX_DIMENSION → 0 < h <= JPEG_MAX_DIMENSION →
  (4 * G <= length buf)%nat → w * h <= 2 * Z.of_nat G →
  compress_frame w h buf
  = Some (JpegInfo w h 3 DEFAULT_JPEG_QUALITY h
            (flat_rows (Z.to_nat w) (Z.to_nat h) buf)).
Proof.
  intros Hw Hh HG Hp. unfold compress_frame.
  rewrite row_buffer_size by assumption.
  rewrite !wrap_u32_id by (unfold is_u32, JPEG_MAX_DIMENSION in *; lia).
  rewrite jpeg_start_compress_ok by assumption.
  cbn [mbind option_bind image_height].
  destruct (scan_loop_at buf (3 * w) G (Z.to_nat w)) with
    (lines := Z.to_nat h) (fuel := Z.to_nat h)
    (j := JpegInfo w h 3 DEFAULT_JPEG_QUALITY 0 []) (k := 0%nat) (second := false)
    as (st & Hs); [lia | cbn; lia | lia | exact HG | cbn; nia |].
  rewrite Z2Nat.id in Hs by lia. change (pixel_state 0 false) with (ConvState 0 0) in Hs.
  rewrite Hs. reflexivity.
Qed.

(** X1: for a size the encoder accepts, whatever the parity of the
    width, the scanlines handed to the
    compressor are consecutive runs of [w] pixels of one group-by-group
    conversion of the buffer: the luma toggle and the read pointer carry
    over from one scanline to the next, so for an odd width a Y0,U,Y1,V
    group is shared by the last pixel of a line and the first of the
    next. [G] counts the complete groups the image needs. *)
Theorem yuyv_any_width (w h : Z) (buf : list byte) (G : nat) :
  0 < w <= JPEG_MAX_DIMENSION → 0 < h <= JPEG_MAX_DIMENSION →
  (4 * G <= length buf)%nat → w * h <= 2 * Z.of_nat G →
  compress_frame w h buf
  = Some (JpegInfo w h 3 DEFAULT_JPEG_QUALITY h
            (flat_rows (Z.to_nat w) (Z.to_nat h) buf)).
Proof. apply compress_frame_flat. Qed.

(** X2: the conversion reads the [G] groups its [w * h] pixels need and
    nothing after them, whatever the length of the mapping: two buffers
    that hold the same first [4 * G] bytes give the same image, and
    [YUYV2JPEG] writes that image for any two sessions of that size,
    whatever their [buffer_len]. *)
Theorem yuyv_reads_frame_only (w h : Z) (buf1 buf2 : list byte) (G : nat) :
  0 < w <= JPEG_MAX_DIMENSION → 0 < h <= JPEG_MAX_DIMENSION →
  w * h <= 2 * Z.of_nat G →
  (4 * G <= length buf1)%nat → (4 * G <= length buf2)%nat →
  take (4 * G) buf1 = take (4 * G) buf2 →
  ∃ j, compress_frame w h buf1 = Some j ∧ compress_frame w h buf2 = Some j
    ∧ ∀ e file vi1 vi2 w1 w2,
        e_calloc e = true →
        w_mem w1 = Some buf1 → w_mem w2 = Some buf2 →
        width vi1 = w → height vi1 = h → width vi2 = w → height vi2 = h →
        ∃ w1' w2', YUYV2JPEG e file vi1 w1 = Some (true, w1')
                   ∧ YUYV2JPEG e file vi2 w2 = Some (true, w2')
                   ∧ w_fs w1' !! file = Some (FileJpeg j)
                   ∧ w_fs w2' !! file = Some (FileJpeg j).
Proof.
  intros Hw Hh Hp H1 H2 Heq.
  pose proof (compress_frame_flat w h buf1 G Hw Hh H1 Hp) as Hj1.
  pose proof (compress_frame_flat w h buf2 G Hw Hh H2 Hp) as Hj2.
  assert (Hrows : flat_rows (Z.to_nat w) (Z.to_nat h) buf2
                  = flat_rows (Z.to_nat w) (Z.to_nat h) buf1).
  { rewrite <- (flat_rows_take buf1 G), <- (flat_rows_take buf2 G), Heq
      by (assumption || nia). reflexivity. }
  rewrite Hrows in Hj2.
  eexists. split; [exact Hj1|]. split; [exact Hj2|].
  intros e file vi1 vi2 w1 w2 Hc Hm1 Hm2 Hw1 Hh1 Hw2 Hh2.
  rewrite <- Hw1, <- Hh1 in Hj1 at 1. rewrite <- Hw2, <- Hh2 in Hj2 at 1.
  rewrite (YUYV2JPEG_ok e file vi1 w1 buf1 _ Hc Hm1 Hj1).
  rewrite (YUYV2JPEG_ok e file vi2 w2 buf2 _ Hc Hm2 Hj2).
  eexists _, _. split; [reflexivity|]. split; [reflexivity|].
  cbn [with_file w_fs]. split; apply lookup_insert_eq.
Qed.

(** ** What each function returns, on every path *)

(** Case analysis on every test a function makes on replies. *)
Ltac split_tests :=
  repeat match goal with
         | |- context [?a <? 0] => is_var a; destruct (a <? 0) eqn:?
         | |- context [?a =? ?b] => is_var a; destruct (a =? b) eqn:?
         | |- context [Z.land ?a ?b =? 0] => destruct (Z.land a b =? 0) eqn:?
         | |- context [if ?b then _ else _] => is_var b; destruct b
         end.

Ltac rewrite_tests :=
  repeat match goal with H : _ = _ |- _ => rewrite H end.

Ltac counts :=
  unfold grows, opens, closes, maps, unmaps;
  cbn [count w_trace w_fs w_mem w_streaming w_queued is_open_ok is_close
       is_mmap_ok is_munmap fd width height buffer buffer_len verbose];
  rewrite_tests; cbn [negb andb]; repeat split; try lia; try reflexivity.

Lemma initVideoDevice_result e vi dev w :
  ∃ vi' w', initVideoDevice e vi (Some dev) w = Some ((init_ok e, vi'), w')
    ∧ w_fs w' = w_fs w ∧ w_mem w' = w_mem w
    ∧ grows w w' (if e_open e <? 0 then 0 else 1)
                 (if init_ok e then 0 else if e_open e <? 0 then 0 else 1) 0 0
    ∧ fd vi' = (if init_ok e then e_open e
                else if e_open e <? 0 then e_open e else -1)
    ∧ width vi' = width vi ∧ height vi' = height vi.
Proof.
  destruct e as [o [qr qe qf] [dr cd cp] ? ? ? ? ? ? ? ? ? ? ? ? ?],
    vi as [? ? ? ? ? ? ? v], w.
  unfold init_ok, query_ok, succeeds, has_cap.
  cbn [e_open e_querycap e_caps rep_ret capabilities].
  split_tests; destruct v;
    (eexists _, _; split; [exec; rewrite_tests; reflexivity | counts]).
Qed.

Lemma setFormat_result e vi w :
  ∃ vi' w', setFormat e vi w = Some ((fmt_ok e, vi'), w')
    ∧ w_fs w' = w_fs w ∧ w_mem w' = w_mem w
    ∧ w_streaming w' = w_streaming w ∧ w_queued w' = w_queued w
    ∧ grows w w' 0 0 0 0
    ∧ fd vi' = fd vi ∧ buffer vi' = buffer vi
    ∧ (fmt_ok e = false → width vi' = width vi ∧ height vi' = height vi)
    ∧ (fmt_ok e = true → vi' = negotiated (e_fmt e) vi).
Proof.
  destruct e as [? ? ? [sr se sf] [gr ge gf] [ft pw ph pf pl] ? ? ? ? ? ? ? ? ? ?],
    vi, w.
  unfold fmt_ok, succeeds. cbn [e_s_fmt e_g_fmt e_fmt rep_ret].
  destruct (sr <? 0) eqn:Hs; [| destruct (gr <? 0) eqn:Hg;
    [| destruct (pw =? wrap_u32 width0) eqn:Hw;
       destruct (ph =? wrap_u32 height0) eqn:Hh]];
    (eexists _, _; split; [exec; rewrite_tests; reflexivity |]);
    counts; try discriminate; intros _; unfold negotiated, width_differs,
      height_differs; cbn [pix_width pix_height width height fd caps fmt buffer
                           buffer_len verbose]; rewrite ?Hw, ?Hh; reflexivity.
Qed.

Lemma allocBuffer_result e vi w :
  ∃ vi' w', allocBuffer e vi w = Some ((alloc_ok e, vi'), w')
    ∧ w_fs w' = w_fs w
    ∧ w_mem w' = (if alloc_ok e then Some (e_mem e) else w_mem w)
    ∧ w_streaming w' = w_streaming w ∧ w_queued w' = w_queued w
    ∧ grows w w' 0 0 (if alloc_ok e then 1 else 0) 0
    ∧ fd vi' = fd vi ∧ width vi' = width vi ∧ height vi' = height vi
    ∧ (alloc_ok e = true →
       buffer vi' = e_mmap e ∧ buffer_len vi' = e_length e).
Proof.
  destruct e as [? ? ? ? ? ? [rr re rf] [qr qe qf] ? ? mm ? ? ? ? ?], vi, w.
  unfold alloc_ok, succeeds. cbn [e_reqbufs e_querybuf e_mmap e_mem e_length rep_ret].
  destruct (rr <? 0) eqn:Hr; [destruct (re =? EINVAL) eqn:He
    | destruct (qr <? 0) eqn:Hq; [| destruct (mm =? MAP_FAILED) eqn:Hm]];
    (eexists _, _; split; [exec; rewrite_tests; reflexivity |]);
    counts; try discriminate.
Qed.

Lemma select_outcomes s :
  ((s <? 0) = true ∧ (s =? 0) = false ∧ (0 <? s) = false)
  ∨ ((s <? 0) = false ∧ (s =? 0) = true ∧ (0 <? s) = false)
  ∨ ((s <? 0) = false ∧ (s =? 0) = false ∧ (0 <? s) = true).
Proof.
  destruct (Z.lt_trichotomy s 0) as [H | [H | H]];
    [left | right; left | right; right];
    rewrite ?Z.ltb_lt, ?Z.ltb_ge, ?Z.eqb_eq, ?Z.eqb_neq; lia.
Qed.

Lemma captureImage_result c vi w :
  ∃ w', captureImage c vi w = Some (cycle_ok c, w')
    ∧ w_fs w' = w_fs w
    ∧ grows w w' 0 0 0 0
    ∧ w_mem w' = (if reaches_wait c && frame_ready c && succeeds (c_dqbuf c)
                  then (λ _, rep_frame (c_dqbuf c)) <$> w_mem w
                  else w_mem w)
    ∧ (cycle_ok c = true → idle w' = true)
    ∧ (succeeds (c_qbuf c) = false →
       w_streaming w' = w_streaming w ∧ w_queued w' = w_queued w).
Proof.
  destruct c as [[q ? ?] [so ? ?] s [dq ? df] [sf ? ?]], vi, w.
  unfold cycle_ok, reaches_wait, frame_ready, succeeds, idle.
  cbn [c_qbuf c_streamon c_select c_dqbuf c_streamoff rep_ret rep_frame].
  destruct (q <? 0) eqn:Hq; [| destruct (so <? 0) eqn:Hso;
    [| destruct (select_outcomes s) as [(Hs1 & Hs2 & Hs3) | [(Hs1 & Hs2 & Hs3) | (Hs1 & Hs2 & Hs3)]];
       [| | destruct (dq <? 0) eqn:Hdq; [| destruct (sf <? 0) eqn:Hsf]]]];
    (eexists; split; [exec; rewrite_tests; reflexivity |]);
    counts; try discriminate; intros _; reflexivity.
Qed.

Lemma saveImage_post e fname vi w r w' :
  saveImage e fname vi w = Some (r, w') →
  r = e_fopen e
  ∧ (∀ p, p ≠ fname → w_fs w' !! p = w_fs w !! p)
  ∧ (e_fopen e = false → w_fs w' = w_fs w)
  ∧ w_mem w' = w_mem w
  ∧ w_streaming w' = w_streaming w ∧ w_queued w' = w_queued w
  ∧ grows w w' 0 0 0 0.
Proof.
  destruct e, vi, w as [? ? ? ? m ?]. intros H. revert H.
  unfold saveImage. exec.
  destruct e_fopen0, e_calloc0; try destruct m as [buf|];
    try destruct (compress_frame _ _ buf);
    intros H; try discriminate H; injection H as <- <-;
    counts; try discriminate;
    intros p Hp; rewrite ?lookup_insert_ne by congruence; reflexivity.
Qed.

(** ** The outcomes of the device functions *)

Ltac tally :=
  unfold emitted, grows, opens, closes, maps, unmaps;
  cbn [count w_trace w_fs w_mem w_streaming w_queued is_open_ok is_close
       is_mmap_ok is_munmap is_mmap is_report is_perror says reports requests
       is_g_fmt is_querybuf is_streamon is_dqbuf is_streamoff any_request
       fd width height buffer buffer_len verbose];
  rewrite_tests; cbn [negb andb orb String.eqb Ascii.eqb Bool.eqb];
  repeat split; try lia; try reflexivity; try discriminate.

(** X3: [captureImage] never faults and returns true exactly when QBUF,
    STREAMON, the wait, DQBUF and STREAMOFF all succeed. It issues
    STREAMON only after a successful QBUF, DQBUF only when a frame is
    ready and STREAMOFF only after a successful DQBUF; a failure gives
    exactly one report; the file system is never touched; a failed QBUF
    leaves the device as it was and a successful cycle leaves it idle. *)
Theorem captureImage_outcome c vi w :
  ∃ w', captureImage c vi w = Some (cycle_ok c, w')
    ∧ w_fs w' = w_fs w
    ∧ emitted is_report w w' (if cycle_ok c then 0 else 1)
    ∧ emitted (requests is_streamon) w w' (if succeeds (c_qbuf c) then 1 else 0)
    ∧ emitted (requests is_dqbuf) w w'
        (if reaches_wait c && frame_ready c then 1 else 0)
    ∧ emitted (requests is_streamoff) w w'
        (if reaches_wait c && frame_ready c && succeeds (c_dqbuf c) then 1 else 0)
    ∧ (cycle_ok c = true → idle w' = true)
    ∧ (succeeds (c_qbuf c) = false →
       w_streaming w' = w_streaming w ∧ w_queued w' = w_queued w).
Proof.
  destruct c as [[q ? ?] [so ? ?] s [dq ? df] [sf ? ?]], vi, w.
  unfold cycle_ok, reaches_wait, frame_ready, succeeds, idle.
  cbn [c_qbuf c_streamon c_select c_dqbuf c_streamoff rep_ret rep_frame].
  destruct (q <? 0) eqn:Hq; [| destruct (so <? 0) eqn:Hso;
    [| destruct (select_outcomes s) as [(Hs1 & Hs2 & Hs3) | [(Hs1 & Hs2 & Hs3) | (Hs1 & Hs2 & Hs3)]];
       [| | destruct (dq <? 0) eqn:Hdq; [| destruct (sf <? 0) eqn:Hsf]]]];
    (eexists; split; [exec; rewrite_tests; reflexivity |]);
    tally; intros _; reflexivity.
Qed.

(** X4: two capture cycles that succeed back to back, on a mapped
    buffer, need nothing between them: the second runs on the state the
    first left, each leaves the device idle, and the buffer ends up
    holding the frame of the second cycle, not of the first. *)
Theorem double_capture c1 c2 vi w buf :
  cycle_ok c1 = true → cycle_ok c2 = true → w_mem w = Some buf →
  ∃ w1 w2, captureImage c1 vi w = Some (true, w1)
    ∧ captureImage c2 vi w1 = Some (true, w2)
    ∧ idle w1 = true ∧ w_mem w1 = Some (rep_frame (c_dqbuf c1))
    ∧ idle w2 = true ∧ w_mem w2 = Some (rep_frame (c_dqbuf c2))
    ∧ w_trace w2 = cycle_events c2 vi ++ cycle_events c1 vi ++ w_trace w
    ∧ w_fs w2 = w_fs w.
Proof.
  intros H1 H2 Hm. rewrite captureImage_ok by assumption.
  eexists _, _. split; [reflexivity|].
  rewrite captureImage_ok by assumption. split; [reflexivity|].
  destruct w. cbn [w_mem] in Hm. subst.
  repeat split.
Qed.

(** X5: [allocBuffer] never faults and returns true exactly when
    REQBUFS, QUERYBUF and mmap() all succeed; then the buffer is mapped
    with the address mmap() returned and the length QUERYBUF reported.
    When it returns false nothing was mapped and exactly one perror was
    made; a failed REQBUFS is followed by no QUERYBUF and no mmap(), and
    the no-mmapped-buffers message appears exactly when REQBUFS failed
    with EINVAL. Width, height and descriptor are never changed. *)
Theorem allocBuffer_outcome e vi w :
  ∃ vi' w', allocBuffer e vi w = Some ((alloc_ok e, vi'), w')
    ∧ w_mem w' = (if alloc_ok e then Some (e_mem e) else w_mem w)
    ∧ (alloc_ok e = true →
       buffer vi' = e_mmap e ∧ buffer_len vi' = e_length e)
    ∧ fd vi' = fd vi ∧ width vi' = width vi ∧ height vi' = height vi
    ∧ emitted is_mmap_ok w w' (if alloc_ok e then 1 else 0)
    ∧ emitted is_perror w w' (if alloc_ok e then 0 else 1)
    ∧ emitted (says "Capture device does not support mmapped buffers\n") w w'
        (if negb (succeeds (e_reqbufs e)) && (rep_errno (e_reqbufs e) =? EINVAL)
         then 1 else 0)
    ∧ (succeeds (e_reqbufs e) = false →
       emitted (requests is_querybuf) w w' 0 ∧ emitted is_mmap w w' 0).
Proof.
  destruct e as [? ? ? ? ? ? [rr re rf] [qr qe qf] ? ? mm ? ? ? ? ?], vi, w.
  unfold alloc_ok, succeeds.
  cbn [e_reqbufs e_querybuf e_mmap e_mem e_length rep_ret rep_errno].
  destruct (rr <? 0) eqn:Hr; [destruct (re =? EINVAL) eqn:He
    | destruct (qr <? 0) eqn:Hq; [| destruct (mm =? MAP_FAILED) eqn:Hm]];
    (eexists _, _; split; [exec; rewrite_tests; reflexivity |]);
    tally.
Qed.

(** X6: [setFormat] never faults and returns true exactly when S_FMT
    and G_FMT both succeed. A failure leaves width and height as they
    were and makes exactly one perror (a failed G_FMT is reported under
    the name VIDIOC_C_FMT); G_FMT is not tried after a failed S_FMT. On
    success a dimension the driver confirms unchanged is kept, and the
    number of warnings is the number of dimensions that differ. The
    descriptor, the mapping and the device state are never changed. *)
Theorem setFormat_outcome e vi w :
  ∃ vi' w', setFormat e vi w = Some ((fmt_ok e, vi'), w')
    ∧ fd vi' = fd vi ∧ w_mem w' = w_mem w ∧ w_fs w' = w_fs w
    ∧ w_streaming w' = w_streaming w ∧ w_queued w' = w_queued w
    ∧ (fmt_ok e = false → width vi' = width vi ∧ height vi' = height vi)
    ∧ emitted is_perror w w' (if fmt_ok e then 0 else 1)
    ∧ emitted (reports "ioctl(VIDIOC_C_FMT)") w w'
        (if succeeds (e_s_fmt e) && negb (succeeds (e_g_fmt e)) then 1 else 0)
    ∧ emitted (requests is_g_fmt) w w' (if succeeds (e_s_fmt e) then 1 else 0)
    ∧ (fmt_ok e = true →
       (width_differs (e_fmt e) vi = false → width vi' = width vi)
       ∧ (height_differs (e_fmt e) vi = false → height vi' = height vi)
       ∧ emitted (λ ev, match ev with EvStderr _ _ => true | _ => false end) w w'
           ((if width_differs (e_fmt e) vi then 1 else 0)
            + (if height_differs (e_fmt e) vi then 1 else 0))).
Proof.
  destruct e as [? ? ? [sr se sf] [gr ge gf] [ft pw ph pf pl] ? ? ? ? ? ? ? ? ? ?],
    vi, w.
  unfold fmt_ok, succeeds, width_differs, height_differs.
  cbn [e_s_fmt e_g_fmt e_fmt rep_ret pix_width pix_height width height].
  destruct (sr <? 0) eqn:Hs; [| destruct (gr <? 0) eqn:Hg;
    [| destruct (pw =? wrap_u32 width0) eqn:Hw;
       destruct (ph =? wrap_u32 height0) eqn:Hh]];
    (eexists _, _; split; [exec; rewrite_tests; reflexivity |]);
    tally.
Qed.

(** X7: [initVideoDevice] with a null path returns false and does
    nothing. With a path it never faults and returns true exactly when
    open() and QUERYCAP succeed and both flags are set, leaving the
    descriptor in the session. When open() fails nothing else is called
    and the descriptor field holds the failed result; when a later step
    fails the descriptor is closed once and the field set to -1. Width
    and height are never changed. *)
Theorem initVideoDevice_outcome e vi w :
  initVideoDevice e vi None w = Some ((false, vi), w)
  ∧ ∀ dev, ∃ vi' w',
      initVideoDevice e vi (Some dev) w = Some ((init_ok e, vi'), w')
      ∧ fd vi' = (if init_ok e then e_open e
                  else if e_open e <? 0 then e_open e else -1)
      ∧ width vi' = width vi ∧ height vi' = height vi
      ∧ emitted is_open_ok w w' (if e_open e <? 0 then 0 else 1)
      ∧ emitted is_close w w'
          (if init_ok e then 0 else if e_open e <? 0 then 0 else 1)
      ∧ emitted (requests any_request) w w' (if e_open e <? 0 then 0 else 1)
      ∧ emitted (reports "open()") w w' (if e_open e <? 0 then 1 else 0)
      ∧ emitted is_report w w' (if init_ok e then 0 else 1)
      ∧ w_fs w' = w_fs w ∧ w_mem w' = w_mem w.
Proof.
  split; [reflexivity|]. intros dev.
  destruct e as [o [qr qe qf] [dr cd cp] ? ? ? ? ? ? ? ? ? ? ? ? ?],
    vi as [? ? ? ? ? ? ? v], w.
  unfold init_ok, query_ok, succeeds, has_cap.
  cbn [e_open e_querycap e_caps rep_ret capabilities].
  split_tests; destruct v;
    (eexists _, _; split; [exec; rewrite_tests; reflexivity | tally]).
Qed.

(** ** Every path of [main] after the option loop *)

Lemma count_app p (a b : list event) :
  count p (a ++ b) = (count p a + count p b)%nat.
Proof. induction a as [|ev a IH]; cbn [app count]; [reflexivity | lia]. Qed.

Lemma count_none p (evs : list event) :
  Forall (λ ev, p ev = false) evs → count p evs = 0%nat.
Proof.
  induction 1 as [|ev evs Hev _ IH]; cbn [count]; [reflexivity|].
  rewrite Hev, IH. reflexivity.
Qed.

Lemma setup_ok_split e : setup_ok e = init_ok e && fmt_ok e && alloc_ok e.
Proof.
  unfold setup_ok, init_ok, fmt_ok, alloc_ok.
  rewrite <- !andb_assoc. reflexivity.
Qed.

Lemma init_ok_open e : init_ok e = true → (e_open e <? 0) = false.
Proof.
  unfold init_ok, query_ok. rewrite !andb_true_iff, negb_true_iff. tauto.
Qed.

Lemma close_exit f (k : Z) w :
  (close f ≫= λ _, mret k) w
  = Some (k, with_device false false (log [EvClose f] w)).
Proof. reflexivity. Qed.

Lemma teardown_exit vi (k : Z) w :
  (releaseBuffer vi ≫= λ _, close (fd vi) ≫= λ _, mret k) w
  = Some (k, with_device false false
               (with_mem None
                  (log [EvClose (fd vi); EvMunmap (buffer vi) (buffer_len vi)] w))).
Proof. reflexivity. Qed.

(** Unfolds the bookkeeping of a finished run. *)
Ltac settle :=
  unfold grows, opens, closes, maps, unmaps, with_device, with_mem, log,
    fprintf_stderr, emit in *;
  cbn [w_trace w_fs w_mem w_streaming w_queued app count is_open_ok is_close
       is_mmap_ok is_munmap negb andb] in *;
  repeat match goal with
         | H : _ ∧ _ |- _ => destruct H
         end;
  repeat split; try congruence; try lia.

(** A failure of the setup or of the discard cycle: [main] returns 1,
    having changed no file and released what it had acquired. *)
Lemma after_options_failure e c w :
  setup_ok e && cycle_ok (e_discard e) = false →
  ∃ w', after_options e c w = Some (1, w')
    ∧ w_fs w' = w_fs w ∧ settled w w'
    ∧ (w_mem w = None → w_mem w' = None).
Proof.
  rewrite setup_ok_split. intros Hfail. unfold after_options, settled.
  rewrite bind_run.
  destruct (initVideoDevice_result e (VI c) (videoDevice c) w)
    as (vi1 & w1 & -> & Hfs1 & Hm1 & Hg1 & _).
  cbv beta iota.
  destruct (init_ok e) eqn:Hi; cbn [negb]; cbv iota;
    [| eexists; split; [reflexivity|];
       destruct (e_open e <? 0); settle].
  rewrite (init_ok_open e Hi) in Hg1.
  rewrite bind_run.
  destruct (setFormat_result e vi1 w1)
    as (vi2 & w2 & -> & Hfs2 & Hm2 & _ & _ & Hg2 & _).
  cbv beta iota.
  destruct (fmt_ok e); cbn [negb]; cbv iota;
    [| rewrite close_exit; eexists; split; [reflexivity|]; settle].
  rewrite bind_run.
  destruct (allocBuffer_result e vi2 w2)
    as (vi3 & w3 & -> & Hfs3 & Hm3 & _ & _ & Hg3 & _).
  cbv beta iota.
  destruct (alloc_ok e); cbn [negb]; cbv iota;
    [| rewrite close_exit; eexists; split; [reflexivity|]; settle].
  rewrite bind_run.
  destruct (captureImage_result (e_discard e) vi3 w3)
    as (w4 & -> & Hfs4 & Hg4 & _).
  cbv beta iota. cbn [andb] in Hfail. rewrite Hfail. cbn [negb]. cbv iota.
  rewrite !bind_run. cbn [fprintf_stderr emit]. cbv beta iota.
  rewrite teardown_exit. eexists. split; [reflexivity|]. settle.
Qed.

(** A run that gets past the discard cycle: if [main] returns, it
    returns 0, has released what it acquired and has changed at most
    the output file. *)
Lemma after_options_success e c w code w' :
  setup_ok e && cycle_ok (e_discard e) = true →
  after_options e c w = Some (code, w') →
  code = 0 ∧ settled w w'
  ∧ (∀ p, p ≠ outputFile c → w_fs w' !! p = w_fs w !! p)
  ∧ (cycle_ok (e_live e) && e_fopen e = false → w_fs w' = w_fs w)
  ∧ w_mem w' = None.
Proof.
  rewrite setup_ok_split, !andb_true_iff.
  intros [[[Hi Hf] Ha] Hd] H. unfold after_options, settled in *.
  rewrite bind_run in H.
  destruct (initVideoDevice_result e (VI c) (videoDevice c) w)
    as (vi1 & w1 & Hr1 & Hfs1 & Hm1 & Hg1 & _).
  rewrite Hr1, Hi in H. cbv beta iota in H. cbn [negb] in H.
  rewrite (init_ok_open e Hi), Hi in Hg1.
  rewrite bind_run in H.
  destruct (setFormat_result e vi1 w1)
    as (vi2 & w2 & Hr2 & Hfs2 & Hm2 & _ & _ & Hg2 & _).
  rewrite Hr2, Hf in H. cbv beta iota in H. cbn [negb] in H.
  rewrite bind_run in H.
  destruct (allocBuffer_result e vi2 w2)
    as (vi3 & w3 & Hr3 & Hfs3 & Hm3 & _ & _ & Hg3 & _).
  rewrite Hr3, Ha in H. cbv beta iota in H. cbn [negb] in H.
  rewrite Ha in Hg3.
  rewrite bind_run in H.
  destruct (captureImage_result (e_discard e) vi3 w3)
    as (w4 & Hr4 & Hfs4 & Hg4 & _).
  rewrite Hr4, Hd in H. cbv beta iota in H. cbn [negb] in H.
  rewrite bind_run in H.
  destruct (captureImage_result (e_live e) vi3 w4)
    as (w5 & Hr5 & Hfs5 & Hg5 & _).
  rewrite Hr5 in H. cbv beta iota in H.
  destruct (cycle_ok (e_live e)).
  - rewrite !bind_run in H.
    destruct (saveImage e (outputFile c) vi3 w5) as [[r w6]|] eqn:Hs;
      [|discriminate H].
    apply saveImage_post in Hs as (_ & Hfs6 & Hfs6' & _ & _ & _ & Hg6).
    cbv beta iota in H. change ((mret () : M ()) w6) with (Some ((), w6)) in H.
    cbv beta iota in H. rewrite teardown_exit in H. injection H as <- <-.
    split; [reflexivity|]. split; [settle|]. split; [| split].
    + intros p Hp. cbn [with_device with_mem log w_fs].
      rewrite (Hfs6 p Hp). congruence.
    + cbn [andb]. intros Hfo. cbn [with_device with_mem log w_fs].
      rewrite (Hfs6' Hfo). congruence.
    + reflexivity.
  - rewrite bind_run in H. change ((mret () : M ()) w5) with (Some ((), w5)) in H.
    cbv beta iota in H.
    rewrite teardown_exit in H. injection H as <- <-.
    split; [reflexivity|]. split; [settle|]. split; [| split].
    + intros p Hp. cbn [with_device with_mem log w_fs]. congruence.
    + intros _. cbn [with_device with_mem log w_fs]. congruence.
    + reflexivity.
Qed.

Lemma output_counts p (evs : list event) :
  (∀ ev, output_event ev = true → p ev = false) →
  Forall (λ ev, output_event ev = true) evs → count p evs = 0%nat.
Proof.
  intros Hp Hall. apply count_none.
  eapply Forall_impl; [exact Hall | exact Hp].
Qed.

(** The option loop acquires nothing. *)
Lemma option_loop_settled atoi opts fs r w0 :
  option_loop atoi opts initial_config (init_world fs) = Some (r, w0) →
  w_fs w0 = fs ∧ w_mem w0 = None
  ∧ opens w0 = 0%nat ∧ closes w0 = 0%nat ∧ maps w0 = 0%nat ∧ unmaps w0 = 0%nat.
Proof.
  intros H. destruct (option_loop_init _ _ _ _ _ H) as (evs & -> & Hevs).
  unfold opens, closes, maps, unmaps, log, init_world. cbn [w_trace w_fs w_mem].
  rewrite app_nil_r.
  repeat split; apply output_counts; try assumption;
    intros [] Hev; try discriminate Hev; reflexivity.
Qed.

(** X8: on every path on which [main] returns, each descriptor it
    opened was closed and each mapping it made was unmapped, at most one
    of each was ever made, nothing is left mapped, and the exit status
    is 0 or 1. *)
Theorem main_releases_everything atoi opts e fs code w' :
  main atoi opts e (init_world fs) = Some (code, w') →
  opens w' = closes w' ∧ maps w' = unmaps w'
  ∧ (opens w' <= 1)%nat ∧ (maps w' <= 1)%nat
  ∧ w_mem w' = None ∧ (code = 0 ∨ code = 1).
Proof.
  rewrite main_run. intros H.
  destruct (option_loop atoi opts initial_config (init_world fs))
    as [[[c|] w0]|] eqn:Hopt; [| | discriminate H].
  - destruct (option_loop_settled _ _ _ _ _ Hopt)
      as (Hfs & Hm & Ho & Hc & Hmp & Hu).
    destruct (setup_ok e && cycle_ok (e_discard e)) eqn:Hok.
    + destruct (after_options_success e c w0 code w' Hok H)
        as (-> & (H1 & H2 & H3 & H4) & _ & _ & Hmem).
      repeat split; try lia; assumption.
    + destruct (after_options_failure e c w0 Hok)
        as (w1 & Hrun & _ & (H1 & H2 & H3 & H4) & Hmem).
      rewrite Hrun in H. injection H as <- <-.
      repeat split; try lia. apply Hmem; assumption.
  - injection H as <- <-.
    destruct (option_loop_settled _ _ _ _ _ Hopt)
      as (Hfs & Hm & Ho & Hc & Hmp & Hu).
    repeat split; try lia. assumption.
Qed.

(** X9: when the options are accepted and any step of the setup or of
    the discard cycle fails, [main] does return, with status 1, and the
    file system is as it was. *)
Theorem setup_failure_exits_one atoi opts e fs c w0 :
  option_loop atoi opts initial_config (init_world fs) = Some (Some c, w0) →
  setup_ok e && cycle_ok (e_discard e) = false →
  ∃ w', main atoi opts e (init_world fs) = Some (1, w') ∧ w_fs w' = fs.
Proof.
  intros Hopt Hfail. rewrite main_run, Hopt.
  destruct (option_loop_settled _ _ _ _ _ Hopt) as (Hfs & _).
  destruct (after_options_failure e c w0 Hfail) as (w1 & -> & Hfs1 & _).
  exists w1. split; [reflexivity | congruence].
Qed.

(** X10: a run of [main] changes no file other than the output file,
    and changes none at all unless setup, both capture cycles and
    fopen() succeeded. *)
Theorem main_writes_only_output atoi opts e fs c w0 code w' :
  option_loop atoi opts initial_config (init_world fs) = Some (Some c, w0) →
  main atoi opts e (init_world fs) = Some (code, w') →
  (∀ p, p ≠ outputFile c → w_fs w' !! p = fs !! p)
  ∧ (setup_ok e && cycle_ok (e_discard e) && cycle_ok (e_live e) && e_fopen e
     = false → w_fs w' = fs).
Proof.
  intros Hopt H. rewrite main_run, Hopt in H.
  destruct (option_loop_settled _ _ _ _ _ Hopt) as (Hfs & _).
  destruct (setup_ok e && cycle_ok (e_discard e)) eqn:Hok.
  - destruct (after_options_success e c w0 code w' Hok H)
      as (_ & _ & Hp & Hno & _).
    split.
    + intros p Hne. rewrite (Hp p Hne), Hfs. reflexivity.
    + cbn [andb]. intros Hf. rewrite (Hno Hf). exact Hfs.
  - destruct (after_options_failure e c w0 Hok) as (w1 & Hrun & Hfs1 & _).
    rewrite Hrun in H. injection H as _ <-.
    split; [intros p _ | intros _]; congruence.
Qed.

(** ** The option loop as a whole *)

Lemma option_loop_app atoi pre : ∀ suf c w,
  option_loop atoi (pre ++ suf) c w
  = match option_loop atoi pre c w with
    | Some (Some c', w') => option_loop atoi suf c' w'
    | r => r
    end.
Proof.
  induction pre as [|[i a] pre IH]; intros suf c w.
  - reflexivity.
  - cbn [app option_loop]. rewrite !bind_run.
    destruct (option_case atoi i a c w) as [[[c1|] w1]|]; [| reflexivity ..].
    apply IH.
Qed.

Lemma option_loop_fields atoi opts : ∀ c w,
  forallb known_option opts.*1 = true →
  ∃ c' w', option_loop atoi opts c w = Some (Some c', w')
    ∧ videoDevice c' = default (videoDevice c) (last_arg "d" opts)
    ∧ outputFile c' = default (outputFile c) (last_arg "o" opts)
    ∧ width (VI c')
      = chosen_size atoi DEFAULT_WIDTH (width (VI c)) (last_arg "w" opts)
    ∧ height (VI c')
      = chosen_size atoi DEFAULT_HEIGHT (height (VI c)) (last_arg "h" opts)
    ∧ verbose (VI c')
      = match last_arg "v" opts with Some _ => true | None => verbose (VI c) end
    ∧ fd (VI c') = fd (VI c)
    ∧ w_fs w' = w_fs w.
Proof.
  induction opts as [|[i a] opts IH]; intros c w Hk.
  - exists c, w. repeat split.
  - cbn [fmap list_fmap forallb fst] in Hk.
    apply andb_true_iff in Hk as [Hi Hk].
    cbn [option_loop]. rewrite bind_run.
    unfold known_option in Hi. rewrite !orb_true_iff, !bool_decide_eq_true in Hi.
    assert (Hstep : ∃ c1 w1, option_case atoi i a c w = Some (Some c1, w1)
              ∧ videoDevice c1 = (if decide (i = "d"%char) then a else videoDevice c)
              ∧ outputFile c1 = (if decide (i = "o"%char) then a else outputFile c)
              ∧ width (VI c1)
                = (if decide (i = "w"%char)
                   then chosen_size atoi DEFAULT_WIDTH 0 (Some a)
                   else width (VI c))
              ∧ height (VI c1)
                = (if decide (i = "h"%char)
                   then chosen_size atoi DEFAULT_HEIGHT 0 (Some a)
                   else height (VI c))
              ∧ verbose (VI c1)
                = (if decide (i = "v"%char) then true else verbose (VI c))
              ∧ fd (VI c1) = fd (VI c) ∧ w_fs w1 = w_fs w).
    { destruct w, c as [[] ? ?].
      destruct Hi as [[[[-> | ->] | ->] | ->] | ->];
        unfold option_case, chosen_size; cbn [decide];
        try destruct (atoi a =? 0) eqn:E;
        (eexists _, _; split; [exec; rewrite ?E; reflexivity|]);
        cbn; rewrite ?E; repeat split. }
    destruct Hstep as (c1 & w1 & -> & Hd & Ho & Hw & Hh & Hv & Hf & Hfs).
    destruct (IH c1 w1 Hk) as (c' & w' & -> & Hd' & Ho' & Hw' & Hh' & Hv' & Hf' & Hfs').
    exists c', w'. split; [reflexivity|].
    cbn [last_arg].
    rewrite Hd', Ho', Hw', Hh', Hv', Hf', Hfs', Hd, Ho, Hw, Hh, Hv, Hf, Hfs.
    clear. unfold chosen_size.
    repeat split;
      try match goal with
          | |- context [last_arg ?j opts] => destruct (last_arg j opts)
          end;
      try reflexivity; cbn [default]; case_decide; reflexivity.
Qed.

(** ** The size options *)

(** [setFormat] always returns, and has then sent VIDIOC_S_FMT with the
    width and height of the session it was given. *)
Lemma setFormat_requests e vi w :
  ∃ r w', setFormat e vi w = Some (r, w')
    ∧ EvIoctl (fd vi) (VIDIOC_S_FMT (requested_format vi)) (rep_ret (e_s_fmt e))
      ∈ w_trace w'.
Proof.
  destruct e as [? ? ? [sr se sf] [gr ge gf] [ft pw ph pf pl] ? ? ? ? ? ? ? ? ? ?],
    vi, w.
  unfold requested_format. cbn [e_s_fmt e_g_fmt e_fmt rep_ret fd width height].
  destruct (sr <? 0) eqn:Hs; [| destruct (gr <? 0) eqn:Hg;
    [| destruct (pw =? wrap_u32 width0) eqn:Hw;
       destruct (ph =? wrap_u32 height0) eqn:Hh]];
    (eexists _, _; split; [exec; rewrite_tests; reflexivity |]);
    cbn [w_trace]; clear; set_solver.
Qed.

(** C10: the [-w] and [-h] cases fall back to the default, with a
    warning, exactly when [atoi] of the argument is 0; any other value,
    negative ones included, becomes the requested width or height as it
    is. For every command line of known options and every device that
    passes the capability check, [main] calls [setFormat], which
    returns after sending VIDIOC_S_FMT with the sizes of the last [-w]
    and [-h], converted to [__u32]; the rest of [main] runs from that
    point, and the request is in the history of every run that
    returns. *)
Theorem size_option_fallback atoi s c w :
  (∃ c', option_case atoi "w" s c w
         = Some (Some c',
                 log (if atoi s =? 0
                      then [EvStderr "Invalid width, using default\n" []]
                      else []) w)
     ∧ width (VI c') = (if atoi s =? 0 then DEFAULT_WIDTH else atoi s)
     ∧ height (VI c') = height (VI c))
  ∧ (∃ c', option_case atoi "h" s c w
           = Some (Some c',
                   log (if atoi s =? 0
                        then [EvStderr "Invalid height, using default\n" []]
                        else []) w)
     ∧ height (VI c') = (if atoi s =? 0 then DEFAULT_HEIGHT else atoi s)
     ∧ width (VI c') = width (VI c))
  ∧ (∀ opts e fs,
       forallb known_option opts.*1 = true →
       query_ok e = true →
       has_cap (e_caps e) V4L2_CAP_VIDEO_CAPTURE = true →
       has_cap (e_caps e) V4L2_CAP_STREAMING = true →
       ∃ c' w0 vi w1 r w2,
         option_loop atoi opts initial_config (init_world fs) = Some (Some c', w0)
         ∧ initVideoDevice e (VI c') (Some (videoDevice c')) w0
           = Some ((true, vi), w1)
         ∧ setFormat e vi w1 = Some (r, w2)
         ∧ format_request e
             (chosen_size atoi DEFAULT_WIDTH DEFAULT_WIDTH (last_arg "w" opts))
             (chosen_size atoi DEFAULT_HEIGHT DEFAULT_HEIGHT (last_arg "h" opts))
           ∈ w_trace w2
         ∧ main atoi opts e (init_world fs) = after_format e c' r w2
         ∧ ∀ code w',
             main atoi opts e (init_world fs) = Some (code, w') →
             format_request e
               (chosen_size atoi DEFAULT_WIDTH DEFAULT_WIDTH (last_arg "w" opts))
               (chosen_size atoi DEFAULT_HEIGHT DEFAULT_HEIGHT (last_arg "h" opts))
             ∈ history w').
Proof.
  split; [| split].
  - destruct w, (atoi s =? 0) eqn:E; eexists;
      (split;
       [unfold option_case; cbn [decide]; exec; rewrite E; reflexivity
       | split; reflexivity]).
  - destruct w, (atoi s =? 0) eqn:E; eexists;
      (split;
       [unfold option_case; cbn [decide]; exec; rewrite E; reflexivity
       | split; reflexivity]).
  - intros opts e fs Hk Hq Hc1 Hc2.
    destruct (option_loop_fields atoi opts initial_config (init_world fs) Hk)
      as (c' & w0 & Hrun & _ & _ & Hw & Hh & _).
    pose proof (initVideoDevice_ok e (VI c') (videoDevice c') w0 Hq Hc1 Hc2)
      as Hinit.
    destruct (setFormat_requests e (set_caps (set_fd (VI c') (e_open e)) (e_caps e))
                (log (verbose_events (VI c') (e_caps e)
                      ++ [EvIoctl (e_open e) VIDIOC_QUERYCAP
                                  (rep_ret (e_querycap e));
                          EvOpen (videoDevice c') (e_open e)]) w0))
      as (r & w2 & Hset & Hin).
    assert (Hreq : EvIoctl (fd (set_caps (set_fd (VI c') (e_open e)) (e_caps e)))
                     (VIDIOC_S_FMT (requested_format
                        (set_caps (set_fd (VI c') (e_open e)) (e_caps e))))
                     (rep_ret (e_s_fmt e))
                   = format_request e
                       (chosen_size atoi DEFAULT_WIDTH DEFAULT_WIDTH
                          (last_arg "w" opts))
                       (chosen_size atoi DEFAULT_HEIGHT DEFAULT_HEIGHT
                          (last_arg "h" opts))).
    { unfold format_request, requested_format.
      cbn [fd width height set_caps set_fd]. rewrite Hw, Hh. reflexivity. }
    rewrite Hreq in Hin.
    assert (Hmain : main atoi opts e (init_world fs) = after_format e c' r w2).
    { rewrite main_run, Hrun. unfold after_options.
      rewrite bind_run, Hinit. cbv beta iota delta [negb].
      rewrite bind_run, Hset. destruct r. reflexivity. }
    eexists c', w0, _, _, r, w2.
    split; [exact Hrun|]. split; [exact Hinit|]. split; [exact Hset|].
    split; [exact Hin|]. split; [exact Hmain|].
    intros code w' Hret. rewrite Hmain in Hret.
    unfold history. apply elem_of_reverse.
    apply (extends_elem _ _ _ _ _ Hret Hin).
    unfold after_format. destruct r. ext.
Qed.

Lemma after_options_open_fails e c w :
  (e_open e <? 0) = true →
  after_options e c w
  = Some (1, log [EvPerror "open()"; EvOpen (videoDevice c) (e_open e)] w).
Proof.
  destruct e, c as [[] ? ?], w. cbn [e_open]. intros Ho.
  exec. rewrite Ho. reflexivity.
Qed.

Lemma option_case_unknown atoi i a c w :
  known_option i = false →
  option_case atoi i a c w = Some (None, log usage_events w).
Proof.
  unfold known_option. rewrite !orb_false_iff, !bool_decide_eq_false.
  intros [[[[Hd Ho] Hw] Hh] Hv]. unfold option_case.
  repeat case_decide; try contradiction. destruct w. reflexivity.
Qed.

(** X11: an option character outside "d:o:w:h:v" makes [main] print the
    seven usage lines and return 1, whatever the environment: the
    options after it are not read, the device is never opened, no
    system call is made and no file is changed. *)
Theorem unknown_option_prints_usage atoi pre i a post e fs :
  forallb known_option pre.*1 = true → known_option i = false →
  ∃ w', main atoi (pre ++ (i, a) :: post) e (init_world fs) = Some (1, w')
    ∧ take 7 (w_trace w') = usage_events
    ∧ Forall (λ ev, output_event ev = true) (w_trace w')
    ∧ w_fs w' = fs.
Proof.
  intros Hpre Hi. rewrite main_run, option_loop_app.
  destruct (option_loop_fields atoi pre initial_config (init_world fs) Hpre)
    as (c1 & w1 & Hrun & _).
  rewrite Hrun. cbn [option_loop]. rewrite bind_run.
  rewrite option_case_unknown by assumption.
  destruct (option_loop_init _ _ _ _ _ Hrun) as (evs & -> & Hevs).
  eexists. split; [reflexivity|]. repeat split.
  - cbn [log w_trace init_world]. rewrite app_nil_r.
    apply Forall_app. split; [repeat constructor | assumption].
Qed.

(** X12: when every option character is known the option loop accepts
    the list, and for each option the last occurrence decides: the
    device and output paths are the last [-d] and [-o] arguments or the
    defaults, width and height come from the last [-w] and [-h]
    (the default when atoi gives 0), verbose is set when [-v] occurs;
    and the device [main] then opens is that device path. *)
Theorem options_last_wins atoi opts fs :
  forallb known_option opts.*1 = true →
  ∃ c w0, option_loop atoi opts initial_config (init_world fs) = Some (Some c, w0)
    ∧ videoDevice c = default DEFAULT_VIDEODEV (last_arg "d" opts)
    ∧ outputFile c = default DEFAULT_OUTPUTFILE (last_arg "o" opts)
    ∧ width (VI c)
      = chosen_size atoi DEFAULT_WIDTH DEFAULT_WIDTH (last_arg "w" opts)
    ∧ height (VI c)
      = chosen_size atoi DEFAULT_HEIGHT DEFAULT_HEIGHT (last_arg "h" opts)
    ∧ verbose (VI c)
      = match last_arg "v" opts with Some _ => true | None => false end
    ∧ w_fs w0 = fs
    ∧ ∀ e, (e_open e <? 0) = true →
        ∃ w', main atoi opts e (init_world fs) = Some (1, w')
          ∧ w_trace w'
            = [EvPerror "open()";
               EvOpen (default DEFAULT_VIDEODEV (last_arg "d" opts)) (e_open e)]
              ++ w_trace w0.
Proof.
  intros Hk.
  destruct (option_loop_fields atoi opts initial_config (init_world fs) Hk)
    as (c & w0 & Hrun & Hd & Ho & Hw & Hh & Hv & _ & Hfs).
  exists c, w0. split; [exact Hrun|].
  repeat (split; [assumption|]).
  intros e He. rewrite main_run, Hrun, after_options_open_fails by assumption.
  eexists. split; [reflexivity|]. rewrite Hd. reflexivity.
Qed.

(** ** Further outcomes *)

(** X13: [saveImage] returns what fopen() returned. When fopen() fails
    it only reports it: no allocation, no encoding, no file changed.
    When it returns at all it has changed no file but its target, nor
    the mapping or the device; and once fopen() succeeded the target
    holds either the encoded image or, when the row buffer could not be
    allocated, nothing: its previous contents are gone either way. *)
Theorem saveImage_outcome e fname vi w :
  (e_fopen e = false →
   saveImage e fname vi w
   = Some (false, log [EvPerror "fopen()"; EvFopen fname false] w))
  ∧ ∀ r w', saveImage e fname vi w = Some (r, w') →
      r = e_fopen e
      ∧ (∀ p, p ≠ fname → w_fs w' !! p = w_fs w !! p)
      ∧ w_mem w' = w_mem w
      ∧ w_streaming w' = w_streaming w ∧ w_queued w' = w_queued w
      ∧ (e_fopen e = true →
         if e_calloc e
         then ∃ j, w_fs w' !! fname = Some (FileJpeg j)
         else w_fs w' !! fname = Some (FileBytes [])).
Proof.
  split.
  - destruct e, vi, w. cbn [e_fopen]. intros ->. reflexivity.
  - intros r w' H.
    destruct (saveImage_post _ _ _ _ _ _ H) as (Hr & Hp & _ & Hm & Hs & Hq & _).
    repeat (split; [assumption|]).
    intros Hf. revert H. destruct e, vi, w as [? ? ? ? m ?].
    cbn [e_fopen e_calloc] in *. subst. unfold saveImage. exec.
    destruct e_calloc0; try destruct m as [buf|];
      try destruct (compress_frame _ _ buf);
      intros H; try discriminate H; injection H as <-;
      cbn [w_fs];
      first [apply lookup_insert_eq | eexists; apply lookup_insert_eq].
Qed.

(** X14: [checkCapabilities] never faults and returns true exactly when
    QUERYCAP succeeds and both flags are set. In verbose mode it prints
    its three lines whenever QUERYCAP succeeded, before it looks at the
    flags, and otherwise prints nothing on stdout; verbosity never
    changes the result. A failure gives exactly one report. *)
Theorem checkCapabilities_outcome e vi w :
  ∃ vi' w', checkCapabilities e vi w
            = Some ((succeeds (e_querycap e)
                     && has_cap (e_caps e) V4L2_CAP_VIDEO_CAPTURE
                     && has_cap (e_caps e) V4L2_CAP_STREAMING, vi'), w')
    ∧ emitted is_stdout w w'
        (if verbose vi && succeeds (e_querycap e) then 3 else 0)
    ∧ emitted is_report w w'
        (if succeeds (e_querycap e)
            && has_cap (e_caps e) V4L2_CAP_VIDEO_CAPTURE
            && has_cap (e_caps e) V4L2_CAP_STREAMING then 0 else 1)
    ∧ emitted is_perror w w' (if succeeds (e_querycap e) then 0 else 1)
    ∧ emitted is_close w w' 0
    ∧ fd vi' = fd vi ∧ verbose vi' = verbose vi
    ∧ width vi' = width vi ∧ height vi' = height vi.
Proof.
  destruct e as [o [qr qe qf] [dr cd cp] ? ? ? ? ? ? ? ? ? ? ? ? ?],
    vi as [? ? ? ? ? ? ? v], w.
  unfold succeeds, has_cap. cbn [e_querycap e_caps rep_ret capabilities verbose].
  split_tests; destruct v;
    (eexists _, _; split; [exec; rewrite_tests; reflexivity |]);
    unfold emitted;
    cbn [count w_trace is_stdout is_report is_perror is_close fd verbose
         width height negb andb];
    repeat split; lia.
Qed.

(** X15: a pixel with neutral chroma (U = V = 128) comes out gray at
    exactly its luma value, for either pixel of the group. *)
Theorem neutral_chroma_is_gray (buf : list byte) k (second : bool) (yb : byte) :
  buf !! (4 * k + (if second then 2 else 0))%nat = Some yb →
  buf !! (4 * k + 1)%nat = Some Byte.x80 →
  buf !! (4 * k + 3)%nat = Some Byte.x80 →
  ∃ st, pixel_body buf (pixel_state k second)
        = Some ([byte_val yb; byte_val yb; byte_val yb], st).
Proof.
  intros Hy Hu Hv. pose proof (byte_val_range yb) as Hr.
  assert (Hg : spec_rgb (byte_val yb) (byte_val Byte.x80) (byte_val Byte.x80)
               = [byte_val yb; byte_val yb; byte_val yb]).
  { unfold spec_rgb. change (byte_val Byte.x80) with 128.
    rewrite Z.shiftl_mul_pow2 by lia.
    replace (byte_val yb * 2 ^ 8 + 359 * (128 - 128)) with (byte_val yb * 2 ^ 8) by lia.
    replace (byte_val yb * 2 ^ 8 - 88 * (128 - 128) - 183 * (128 - 128))
      with (byte_val yb * 2 ^ 8) by lia.
    replace (byte_val yb * 2 ^ 8 + 454 * (128 - 128)) with (byte_val yb * 2 ^ 8) by lia.
    rewrite Z.shiftr_div_pow2, Z.div_mul by lia.
    unfold clamp255. repeat f_equal; lia. }
  unfold pixel_state. destruct second.
  - rewrite (pixel_body_second buf (4 * k) yb Byte.x80 Byte.x80) by assumption.
    rewrite Hg. eexists. reflexivity.
  - rewrite (pixel_body_first buf (4 * k) yb Byte.x80 Byte.x80) by assumption.
    rewrite Hg. eexists. reflexivity.
Qed.

(** ** The further theorems at concrete inputs *)

Lemma yuyv_any_width_witness :
  compress_frame 3 2 odd_frame
  = Some (JpegInfo 3 2 3 DEFAULT_JPEG_QUALITY 2
            (flat_rows (Z.to_nat 3) (Z.to_nat 2) odd_frame)).
Proof.
  apply (yuyv_any_width 3 2 odd_frame 3);
    [unfold JPEG_MAX_DIMENSION; lia | unfold JPEG_MAX_DIMENSION; lia
    | cbn; lia | lia].
Defined.

Example odd_width_rows :
  jp_rows <$> compress_frame 3 2 odd_frame
  = Some [[239; 15; 14; 255; 78; 77; 255; 208; 28];
          [178; 0; 0; 16; 16; 16; 235; 235; 235]].
Proof. reflexivity. Qed.

Lemma yuyv_reads_frame_only_witness :
  ∃ j, compress_frame 2 2 odd_frame = Some j
    ∧ compress_frame 2 2 sample_frame = Some j
    ∧ ∀ e file vi1 vi2 w1 w2,
        e_calloc e = true →
        w_mem w1 = Some odd_frame → w_mem w2 = Some sample_frame →
        width vi1 = 2 → height vi1 = 2 → width vi2 = 2 → height vi2 = 2 →
        ∃ w1' w2', YUYV2JPEG e file vi1 w1 = Some (true, w1')
                   ∧ YUYV2JPEG e file vi2 w2 = Some (true, w2')
                   ∧ w_fs w1' !! file = Some (FileJpeg j)
                   ∧ w_fs w2' !! file = Some (FileJpeg j).
Proof.
  apply (yuyv_reads_frame_only 2 2 odd_frame sample_frame 2);
    [unfold JPEG_MAX_DIMENSION; lia | unfold JPEG_MAX_DIMENSION; lia
    | lia | cbn; lia | cbn; lia | reflexivity].
Defined.

Lemma double_capture_witness :
  ∃ w1 w2,
    captureImage (good_cycle fixture) open_session mapped_world = Some (true, w1)
    ∧ captureImage (good_cycle sample_frame) open_session w1 = Some (true, w2)
    ∧ idle w1 = true ∧ w_mem w1 = Some fixture
    ∧ idle w2 = true ∧ w_mem w2 = Some sample_frame
    ∧ w_trace w2
      = cycle_events (good_cycle sample_frame) open_session
        ++ cycle_events (good_cycle fixture) open_session ++ w_trace mapped_world
    ∧ w_fs w2 = w_fs mapped_world.
Proof.
  exact (double_capture (good_cycle fixture) (good_cycle sample_frame)
           open_session mapped_world fixture eq_refl eq_refl eq_refl).
Defined.

Lemma main_releases_everything_witness :
  match main atoi_c [] mmap_fails_env (init_world ∅) with
  | Some (code, w') =>
      opens w' = closes w' ∧ maps w' = unmaps w'
      ∧ (opens w' <= 1)%nat ∧ (maps w' <= 1)%nat
      ∧ w_mem w' = None ∧ (code = 0 ∨ code = 1)
  | None => False
  end.
Proof.
  destruct (main atoi_c [] mmap_fails_env (init_world ∅)) as [[code w']|] eqn:H.
  - exact (main_releases_everything atoi_c [] mmap_fails_env ∅ code w' H).
  - vm_compute in H. discriminate H.
Defined.

Lemma setup_failure_exits_one_witness :
  ∃ w', main atoi_c [] mmap_fails_env (init_world ∅) = Some (1, w')
        ∧ w_fs w' = ∅.
Proof.
  exact (setup_failure_exits_one atoi_c [] mmap_fails_env ∅ initial_config
           (init_world ∅) eq_refl eq_refl).
Defined.

Lemma main_writes_only_output_witness :
  match main atoi_c [] good_env (init_world ∅) with
  | Some (code, w') =>
      (∀ p, p ≠ "vcap.jpg" → w_fs w' !! p = (∅ : gmap string file_data) !! p)
      ∧ (setup_ok good_env && cycle_ok (e_discard good_env)
         && cycle_ok (e_live good_env) && e_fopen good_env = false →
         w_fs w' = ∅)
  | None => False
  end.
Proof.
  destruct (main atoi_c [] good_env (init_world ∅)) as [[code w']|] eqn:H.
  - exact (main_writes_only_output atoi_c [] good_env ∅ initial_config
             (init_world ∅) code w' eq_refl H).
  - vm_compute in H. discriminate H.
Defined.

Lemma unknown_option_prints_usage_witness :
  ∃ w', main atoi_c ([("v"%char, "")] ++ ("x"%char, "") :: [("d"%char, "/dev/video1")])
             good_env (init_world ∅) = Some (1, w')
    ∧ take 7 (w_trace w') = usage_events
    ∧ Forall (λ ev, output_event ev = true) (w_trace w')
    ∧ w_fs w' = ∅.
Proof.
  exact (unknown_option_prints_usage atoi_c [("v"%char, "")] "x"%char ""
           [("d"%char, "/dev/video1")] good_env ∅ eq_refl eq_refl).
Defined.

Lemma options_last_wins_witness :
  ∃ c w0, option_loop atoi_c sample_options initial_config (init_world ∅)
          = Some (Some c, w0)
    ∧ videoDevice c = default DEFAULT_VIDEODEV (last_arg "d" sample_options)
    ∧ outputFile c = default DEFAULT_OUTPUTFILE (last_arg "o" sample_options)
    ∧ width (VI c)
      = chosen_size atoi_c DEFAULT_WIDTH DEFAULT_WIDTH (last_arg "w" sample_options)
    ∧ height (VI c)
      = chosen_size atoi_c DEFAULT_HEIGHT DEFAULT_HEIGHT (last_arg "h" sample_options)
    ∧ verbose (VI c)
      = match last_arg "v" sample_options with Some _ => true | None => false end
    ∧ w_fs w0 = ∅
    ∧ ∀ e, (e_open e <? 0) = true →
        ∃ w', main atoi_c sample_options e (init_world ∅) = Some (1, w')
          ∧ w_trace w'
            = [EvPerror "open()";
               EvOpen (default DEFAULT_VIDEODEV (last_arg "d" sample_options))
                      (e_open e)]
              ++ w_trace w0.
Proof.
  exact (options_last_wins atoi_c sample_options ∅ eq_refl).
Defined.

Lemma size_option_fallback_witness :
  ∃ c' w0 vi w1 r w2,
    option_loop atoi_c [("w"%char, "-5")] initial_config (init_world ∅)
    = Some (Some c', w0)
    ∧ initVideoDevice good_env (VI c') (Some (videoDevice c')) w0
      = Some ((true, vi), w1)
    ∧ setFormat good_env vi w1 = Some (r, w2)
    ∧ format_request good_env (-5) DEFAULT_HEIGHT ∈ w_trace w2
    ∧ main atoi_c [("w"%char, "-5")] good_env (init_world ∅)
      = after_format good_env c' r w2
    ∧ ∀ code w',
        main atoi_c [("w"%char, "-5")] good_env (init_world ∅) = Some (code, w') →
        format_request good_env (-5) DEFAULT_HEIGHT ∈ history w'.
Proof.
  exact (proj2 (proj2 (size_option_fallback atoi_c "" initial_config
                         (init_world ∅)))
           [("w"%char, "-5")] good_env ∅ eq_refl eq_refl eq_refl eq_refl).
Defined.

Example negative_width_request :
  format_request good_env (-5) DEFAULT_HEIGHT
  = EvIoctl 3 (VIDIOC_S_FMT (Format 1 4294967291 480 V4L2_PIX_FMT_YUYV 0)) 0.
Proof. reflexivity. Qed.

Example sample_options_result :
  (λ r : option config * world,
     ((λ c, (videoDevice c, outputFile c, width (VI c), height (VI c),
             verbose (VI c))) <$> r.1, w_trace r.2))
    <$> option_loop atoi_c sample_options initial_config (init_world ∅)
  = Some (Some ("/dev/video2", "vcap.jpg", 640, 480, true),
          [EvStderr "Invalid width, using default\n" []]).
Proof. vm_compute. reflexivity. Qed.

Lemma neutral_chroma_is_gray_witness :
  ∃ st, pixel_body fixture (pixel_state 0 true)
        = Some ([byte_val Byte.x10; byte_val Byte.x10; byte_val Byte.x10], st).
Proof.
  exact (neutral_chroma_is_gray fixture 0 true Byte.x10 eq_refl eq_refl eq_refl).
Defined.

Example mmap_failure_run :
  (λ r : Z * world, (r.1, drop 8 (history r.2)))
    <$> main atoi_c [] mmap_fails_env (init_world ∅)
  = Some (1, [EvMmap 8 0 (-1); EvPerror "mmap()"; EvClose 3]).
Proof. vm_compute. reflexivity. Qed.
